(** * chartjs-mcp-server: the generateChart tool and its HTTP session registry

    A shallow embedding of [src/index.ts]: the configuration validator
    [validateChartConfig], the [generateChart] tool handler, the start-up
    selection of transport and port, and the request handler of
    [startHttpServer] with its session registry.

    JavaScript values are an inductive type, numbers are IEEE 754 binary64
    values ([spec_float]), strings are [string]s holding the text's bytes,
    exceptions are an explicit [completion] type, and the registry
    [Map<string, StreamableHTTPServerTransport>] is a [gmap]. *)

From Stdlib Require Import ZArith Ascii String List Bool Lia.
From Stdlib Require Import Strings.Byte.
From Stdlib Require Import Floats.SpecFloat.
From stdpp Require Import base option list strings gmap.

Open Scope string_scope.

Set Warnings "-register-all".
Set Default Proof Using "Type".

(** ** JavaScript values *)

Module JS.

(** Numbers are doubles. *)
Definition number := spec_float.

Definition prec : Z := 53.
Definition emax : Z := 1024.

(** The double nearest to an integer (ties to even). *)
Definition of_Z (z : Z) : number := binary_normalize prec emax z 0 false.

Definition NaN : number := S754_nan.

(** [x === y] on numbers. *)
Definition number_eqb (x y : number) : bool := SFeqb x y.

Inductive value : Type :=
| Undefined
| Null
| Bool (b : bool)
| Num (n : number)
| Str (s : string)
| Arr (elems : list value)
| Obj (props : list (string * value)).

(** ToBoolean: [undefined], [null], [false], [+0], [-0], [NaN] and the empty
    string are falsy, everything else (every object, every array) is
    truthy. *)
Definition truthy (v : value) : bool :=
  match v with
  | Undefined | Null => false
  | Bool b => b
  | Num (S754_zero _) | Num S754_nan => false
  | Num _ => true
  | Str s => negb (String.eqb s "")
  | Arr _ | Obj _ => true
  end.

(** The [typeof] operator. *)
Definition typeof (v : value) : string :=
  match v with
  | Undefined => "undefined"
  | Null => "object"
  | Bool _ => "boolean"
  | Num _ => "number"
  | Str _ => "string"
  | Arr _ | Obj _ => "object"
  end.

Definition isArray (v : value) : bool :=
  match v with Arr _ => true | _ => false end.

(** Own properties of an object literal or a parsed object: the first
    binding of the key. *)
Fixpoint lookup_prop (k : string) (props : list (string * value)) : option value :=
  match props with
  | [] => None
  | (k', v) :: rest => if String.eqb k k' then Some v else lookup_prop k rest
  end.

(** Writing a property keeps the position of an existing key. *)
Fixpoint set_prop (k : string) (v : value) (props : list (string * value))
  : list (string * value) :=
  match props with
  | [] => [(k, v)]
  | (k', v') :: rest =>
      if String.eqb k k' then (k, v) :: rest else (k', v') :: set_prop k v rest
  end.

Definition is_digit (c : ascii) : bool :=
  (48 <=? nat_of_ascii c)%nat && (nat_of_ascii c <=? 57)%nat.

Definition digit_val (c : ascii) : Z := Z.of_nat (nat_of_ascii c) - 48.

Fixpoint digits_val (acc : Z) (s : string) : option Z :=
  match s with
  | EmptyString => Some acc
  | String c rest =>
      if is_digit c then digits_val (10 * acc + digit_val c) rest else None
  end.

(** An array index is a canonical numeric string below 2^32 - 1. *)
Definition array_index (k : string) : option nat :=
  match k with
  | EmptyString => None
  | String "0" EmptyString => Some 0%nat
  | String "0" _ => None
  | _ =>
      match digits_val 0 k with
      | Some z => if (z <? 4294967295)%Z then Some (Z.to_nat z) else None
      | None => None
      end
  end.

(** The property read [v.k] for the values the program reads properties of:
    objects and arrays.  Neither prototype carries one of the names read by
    the program ([type], [data], [datasets]); an array has its indices and
    [length].  The program reads no property of another value; for those
    the result is [undefined] here. *)
Definition get (v : value) (k : string) : value :=
  match v with
  | Obj props => default Undefined (lookup_prop k props)
  | Arr elems =>
      if String.eqb k "length" then Num (of_Z (Z.of_nat (length elems)))
      else match array_index k with
           | Some i => nth i elems Undefined
           | None => Undefined
           end
  | _ => Undefined
  end.

(** [l.includes(v)] for an array of strings: SameValueZero equates a string
    only with an equal string. *)
Definition includes (l : list string) (v : value) : bool :=
  match v with
  | Str s => existsb (String.eqb s) l
  | _ => false
  end.

(** [l.join(sep)] for an array of strings. *)
Fixpoint join (sep : string) (l : list string) : string :=
  match l with
  | [] => ""
  | [s] => s
  | s :: rest => s +:+ sep +:+ join sep rest
  end.

(** Thrown values: [Error] objects, which carry a message. *)
Record error := Error { message : string }.

(** The outcome of evaluating a call. *)
Inductive completion (A : Type) : Type :=
| Normal (a : A)
| Throw (e : error).
Arguments Normal {A} a.
Arguments Throw {A} e.

Definition bind {A B} (k : A -> completion B) (c : completion A) : completion B :=
  match c with
  | Normal a => k a
  | Throw e => Throw e
  end.

#[export] Instance completion_ret : MRet completion := @Normal.
#[export] Instance completion_bind : MBind completion := @bind.

End JS.
Export (hints) JS.

(** ** JSON.parse

    The runtime's parser, written out after ECMA-404 so that the validator
    can be run on concrete texts.  The text is a byte string in UTF-8; an
    escape [\uXXXX] contributes the UTF-8 bytes of its character, a pair of
    surrogate escapes those of the character they encode together.  [None]
    stands for the [SyntaxError] the runtime throws. *)

Module JSON.
Import JS.

Definition ch (n : nat) : ascii := ascii_of_nat n.
Definition dquote : ascii := ch 34.
Definition backslash : ascii := ch 92.

Definition is_ws (c : ascii) : bool :=
  match nat_of_ascii c with
  | 32 | 9 | 10 | 13 => true
  | _ => false
  end%nat.

Fixpoint skip_ws (s : string) : string :=
  match s with
  | String c rest => if is_ws c then skip_ws rest else s
  | EmptyString => s
  end.

Definition hex_val (c : ascii) : option Z :=
  let n := Z.of_nat (nat_of_ascii c) in
  if (48 <=? n)%Z && (n <=? 57)%Z then Some (n - 48)%Z
  else if (65 <=? n)%Z && (n <=? 70)%Z then Some (n - 55)%Z
  else if (97 <=? n)%Z && (n <=? 102)%Z then Some (n - 87)%Z
  else None.

Definition hex4 (a b c d : ascii) : option Z :=
  match hex_val a, hex_val b, hex_val c, hex_val d with
  | Some x, Some y, Some z, Some w => Some (((x * 16 + y) * 16 + z) * 16 + w)%Z
  | _, _, _, _ => None
  end.

Definition byte_of (z : Z) : ascii := ch (Z.to_nat z).

(** UTF-8 bytes of a code point (surrogate code points included, so that a
    lone surrogate escape still has an image). *)
Definition utf8 (cp : Z) : string :=
  if (cp <? 128)%Z then String (byte_of cp) ""
  else if (cp <? 2048)%Z then
    String (byte_of (192 + cp / 64)) (String (byte_of (128 + cp mod 64)) "")
  else if (cp <? 65536)%Z then
    String (byte_of (224 + cp / 4096))
      (String (byte_of (128 + (cp / 64) mod 64))
         (String (byte_of (128 + cp mod 64)) ""))
  else
    String (byte_of (240 + cp / 262144))
      (String (byte_of (128 + (cp / 4096) mod 64))
         (String (byte_of (128 + (cp / 64) mod 64))
            (String (byte_of (128 + cp mod 64)) ""))).

Definition is_high_surrogate (u : Z) : bool := (55296 <=? u)%Z && (u <=? 56319)%Z.
Definition is_low_surrogate (u : Z) : bool := (56320 <=? u)%Z && (u <=? 57343)%Z.

(** The character a one-letter escape stands for. *)
Definition escape_char (c : ascii) : option ascii :=
  match nat_of_ascii c with
  | 34 => Some dquote
  | 92 => Some backslash
  | 47 => Some (ch 47)
  | 98 => Some (ch 8)
  | 102 => Some (ch 12)
  | 110 => Some (ch 10)
  | 114 => Some (ch 13)
  | 116 => Some (ch 9)
  | _ => None
  end%nat.

(** Puts decoded characters in front of the rest of a string literal. *)
Definition prepend (front : string) (r : option (string * string)) : option (string * string) :=
  match r with
  | Some (str, rest) => Some (front +:+ str, rest)
  | None => None
  end.

(** The characters of a string literal after its opening quote: the decoded
    string and the text after the closing quote. *)
Fixpoint parse_chars (s : string) : option (string * string) :=
  match s with
  | EmptyString => None
  | String c rest =>
      if Ascii.eqb c dquote then Some ("", rest)
      else if Ascii.eqb c backslash then
        match rest with
        | EmptyString => None
        | String e rest1 =>
            if Ascii.eqb e "u" then
              match rest1 with
              | String h1 (String h2 (String h3 (String h4 rest2))) =>
                  match hex4 h1 h2 h3 h4 with
                  | None => None
                  | Some u =>
                      let single := prepend (utf8 u) (parse_chars rest2) in
                      if is_high_surrogate u then
                        match rest2 with
                        | String b (String v (String l1 (String l2 (String l3 (String l4 rest3))))) =>
                            match hex4 l1 l2 l3 l4 with
                            | Some lo =>
                                if Ascii.eqb b backslash && Ascii.eqb v "u"
                                   && is_low_surrogate lo then
                                  prepend
                                    (utf8 (65536 + (u - 55296) * 1024 + (lo - 56320)))
                                    (parse_chars rest3)
                                else single
                            | None => single
                            end
                        | _ => single
                        end
                      else single
                  end
              | _ => None
              end
            else
              match escape_char e with
              | Some c' => prepend (String c' "") (parse_chars rest1)
              | None => None
              end
        end
      else if (nat_of_ascii c <? 32)%nat then None
      else prepend (String c "") (parse_chars rest)
  end.

(** A maximal run of decimal digits: its value, its length, the rest. *)
Fixpoint take_digits (acc : Z) (n : nat) (s : string) : Z * nat * string :=
  match s with
  | String c rest =>
      if is_digit c then take_digits (10 * acc + digit_val c) (S n) rest
      else (acc, n, s)
  | EmptyString => (acc, n, s)
  end.

(** The double nearest to [m * 10^e], with the sign given. *)
Definition decimal_to_number (neg : bool) (m : Z) (e : Z) : number :=
  match m with
  | Zpos p =>
      if (0 <=? e)%Z then
        binary_normalize prec emax (if neg then - (m * 10 ^ e) else m * 10 ^ e) 0 false
      else SFdiv prec emax (S754_finite neg p 0)
                           (S754_finite false (Z.to_pos (10 ^ (- e))) 0)
  | _ => S754_zero neg
  end.

Definition starts_with_char (c : ascii) (s : string) : bool :=
  match s with
  | String c' _ => Ascii.eqb c' c
  | EmptyString => false
  end.

Definition tail (s : string) : string :=
  match s with
  | String _ rest => rest
  | EmptyString => s
  end.

(** The exponent part after [e] or [E]: an optional sign and digits. *)
Definition parse_exponent (neg : bool) (m nf : Z) (s : string) : option (number * string) :=
  let eneg := starts_with_char "-" s in
  let s1 := if eneg || starts_with_char "+" s then tail s else s in
  let '(ev, ne, s2) := take_digits 0 0 s1 in
  if Nat.eqb ne 0 then None
  else Some (decimal_to_number neg m ((if eneg then - ev else ev) - nf), s2).

(** A number token, starting at its first digit: an integer part without
    superfluous zero, an optional fraction, an optional exponent. *)
Definition parse_number_body (neg : bool) (s : string) : option (number * string) :=
  let '(ip, ni, s1) := take_digits 0 0 s in
  if Nat.eqb ni 0 || (starts_with_char "0" s && (1 <? ni)%nat) then None
  else
    let '(m, nf, s3) :=
      if starts_with_char "." s1 then take_digits ip 0 (tail s1) else (ip, 0%nat, s1) in
    if starts_with_char "." s1 && Nat.eqb nf 0 then None
    else if starts_with_char "e" s3 || starts_with_char "E" s3 then
      parse_exponent neg m (Z.of_nat nf) (tail s3)
    else Some (decimal_to_number neg m (- Z.of_nat nf), s3).

Definition parse_number (s : string) : option (number * string) :=
  if starts_with_char "-" s then parse_number_body true (tail s)
  else parse_number_body false s.

(** The text after a keyword. *)
Fixpoint strip_prefix (p s : string) : option string :=
  match p, s with
  | EmptyString, _ => Some s
  | String a p', String b s' => if Ascii.eqb a b then strip_prefix p' s' else None
  | String _ _, EmptyString => None
  end.

Definition keyword (k : string) (v : value) (s : string) : option (value * string) :=
  match strip_prefix k s with
  | Some rest => Some (v, rest)
  | None => None
  end.

Section Steps.

(** The parsers of the three syntactic classes, each in terms of the
    others. *)
Variable value_ : string -> option (value * string).
Variable elements_ : string -> list value -> option (value * string).
Variable members_ : string -> list (string * value) -> option (value * string).

Definition value_step (s : string) : option (value * string) :=
  match skip_ws s with
  | EmptyString => None
  | String c rest as s' =>
      if Ascii.eqb c "{" then
        if starts_with_char "}" (skip_ws rest) then Some (Obj [], tail (skip_ws rest))
        else members_ rest []
      else if Ascii.eqb c "[" then
        if starts_with_char "]" (skip_ws rest) then Some (Arr [], tail (skip_ws rest))
        else elements_ rest []
      else if Ascii.eqb c dquote then
        match parse_chars rest with
        | Some (str, rest') => Some (Str str, rest')
        | None => None
        end
      else if Ascii.eqb c "t" then keyword "true" (Bool true) s'
      else if Ascii.eqb c "f" then keyword "false" (Bool false) s'
      else if Ascii.eqb c "n" then keyword "null" Null s'
      else
        match parse_number s' with
        | Some (n, rest') => Some (Num n, rest')
        | None => None
        end
  end.

(** Elements after [[] or after a comma: a value, then a comma and more
    elements, or the closing bracket. *)
Definition elements_step (s : string) (acc : list value) : option (value * string) :=
  match value_ s with
  | Some (v, rest) =>
      if starts_with_char "," (skip_ws rest) then elements_ (tail (skip_ws rest)) (v :: acc)
      else if starts_with_char "]" (skip_ws rest) then
        Some (Arr (rev (v :: acc)), tail (skip_ws rest))
      else None
  | None => None
  end.

(** Members after [{] or after a comma: a string, a colon, a value, then a
    comma and more members, or the closing brace.  A repeated key keeps its
    place and takes the later value. *)
Definition members_step (s : string) (acc : list (string * value)) : option (value * string) :=
  if starts_with_char dquote (skip_ws s) then
    match parse_chars (tail (skip_ws s)) with
    | Some (k, rest1) =>
        if starts_with_char ":" (skip_ws rest1) then
          match value_ (tail (skip_ws rest1)) with
          | Some (v, rest3) =>
              if starts_with_char "," (skip_ws rest3) then
                members_ (tail (skip_ws rest3)) (set_prop k v acc)
              else if starts_with_char "}" (skip_ws rest3) then
                Some (Obj (set_prop k v acc), tail (skip_ws rest3))
              else None
          | None => None
          end
        else None
    | None => None
    end
  else None.

End Steps.

(** [fuel] bounds the depth of the calls.  Every call consumes a character
    of the text before the next one, except the call of [parse_value] by
    [parse_elements]: the [2 * length + 2] given by [parse] is not
    exhausted ([parse_value_fuel] below). *)
Fixpoint parse_value (fuel : nat) (s : string) {struct fuel} : option (value * string) :=
  match fuel with
  | O => None
  | S fuel' => value_step (parse_elements fuel') (parse_members fuel') s
  end
with parse_elements (fuel : nat) (s : string) (acc : list value) {struct fuel}
  : option (value * string) :=
  match fuel with
  | O => None
  | S fuel' => elements_step (parse_value fuel') (parse_elements fuel') s acc
  end
with parse_members (fuel : nat) (s : string) (acc : list (string * value)) {struct fuel}
  : option (value * string) :=
  match fuel with
  | O => None
  | S fuel' => members_step (parse_value fuel') (parse_members fuel') s acc
  end.

(** [JSON.parse(text)]: one value, surrounded by white space only. *)
Definition parse (text : string) : option value :=
  match parse_value (2 * String.length text + 2) text with
  | Some (v, rest) =>
      match skip_ws rest with
      | EmptyString => Some v
      | _ => None
      end
  | None => None
  end.

(** A parser consumes when the text it leaves is shorter than the text it
    was given. *)
Definition consumes {A} (p : string -> option (A * string)) : Prop :=
  forall s x rest, p s = Some (x, rest) -> (String.length rest < String.length s)%nat.

End JSON.

(** ** Buffer.toString('base64') *)

Module Buffer.

Definition alphabet : string :=
  "ABCDEFGHIJKLMNOPQRSTUVWXYZabcdefghijklmnopqrstuvwxyz0123456789+/".

Definition sextet (n : N) : ascii :=
  default "="%char (String.get (N.to_nat n) alphabet).

(** Three bytes give four characters; a final group of one or two bytes is
    padded with [=]. *)
Fixpoint toString_base64 (bytes : list byte) : string :=
  match bytes with
  | [] => ""
  | [a] =>
      let x := Byte.to_N a in
      String (sextet (x / 4)) (String (sextet ((x mod 4) * 16)) "==")
  | [a; b] =>
      let x := Byte.to_N a in
      let y := Byte.to_N b in
      String (sextet (x / 4))
        (String (sextet ((x mod 4) * 16 + y / 16))
           (String (sextet ((y mod 16) * 4)) "="))
  | a :: b :: c :: rest =>
      let x := Byte.to_N a in
      let y := Byte.to_N b in
      let z := Byte.to_N c in
      String (sextet (x / 4))
        (String (sextet ((x mod 4) * 16 + y / 16))
           (String (sextet ((y mod 16) * 4 + z / 64))
              (String (sextet (z mod 64)) (toString_base64 rest))))
  end%N.

(** [Buffer.from(text, 'base64')], for text with its padding: the inverse
    direction, against which the encoder is checked. *)
Fixpoint index_from (i : N) (c : ascii) (s : string) : option N :=
  match s with
  | EmptyString => None
  | String c' rest => if Ascii.eqb c c' then Some i else index_from (N.succ i) c rest
  end.

Definition sextet_of (c : ascii) : option N := index_from 0 c alphabet.

(** Four characters give three bytes; padding ends the text. *)
Fixpoint from_base64 (s : string) : option (list byte) :=
  match s with
  | EmptyString => Some []
  | String a (String b (String c (String d rest))) =>
      v1 ← sextet_of a;
      v2 ← sextet_of b;
      b1 ← Byte.of_N (v1 * 4 + v2 / 16);
      if Ascii.eqb c "=" then
        if Ascii.eqb d "=" && String.eqb rest "" then Some [b1] else None
      else
        v3 ← sextet_of c;
        b2 ← Byte.of_N ((v2 mod 16) * 16 + v3 / 4);
        if Ascii.eqb d "=" then
          if String.eqb rest "" then Some [b1; b2] else None
        else
          v4 ← sextet_of d;
          b3 ← Byte.of_N ((v3 mod 4) * 64 + v4);
          tl ← from_base64 rest;
          Some (b1 :: b2 :: b3 :: tl)
  | _ => None
  end%N.

End Buffer.

(** ** The configuration validator *)

Import JS.

Definition validTypes : list string :=
  ["bar"; "line"; "scatter"; "bubble"; "pie"; "doughnut"; "polarArea"; "radar"].

(** [v.length === 0] *)
Definition length_is_zero (v : value) : bool :=
  match v with
  | Arr elems => Nat.eqb (length elems) 0
  | Str s => String.eqb s ""
  | Obj props =>
      match lookup_prop "length" props with
      | Some (Num n) => number_eqb n (S754_zero false)
      | _ => false
      end
  | _ => false
  end.

Section Validator.

(** [JSON.parse] belongs to the runtime; the validator is written against
    any parser, [None] standing for a thrown [SyntaxError]. *)
Variable JSON_parse : string -> option value.

Definition validateChartConfig (chartConfig : value) : completion value :=
  config ←
    (if String.eqb (typeof chartConfig) "string" then
       match chartConfig with
       | Str s =>
           match JSON_parse s with
           | Some parsed => Normal parsed
           | None => Throw (Error "Chart configuration string is not valid JSON")
           end
       | _ => Normal chartConfig
       end
     else Normal chartConfig);
  if negb (truthy config) || negb (String.eqb (typeof config) "object") then
    Throw (Error "Chart configuration must be an object")
  else if negb (truthy (get config "type")) || negb (includes validTypes (get config "type")) then
    Throw (Error ("Invalid chart type. Must be one of: " +:+ join ", " validTypes))
  else if negb (truthy (get config "data"))
          || negb (String.eqb (typeof (get config "data")) "object") then
    Throw (Error "Chart configuration must include a data object")
  else if negb (truthy (get (get config "data") "datasets"))
          || negb (isArray (get (get config "data") "datasets")) then
    Throw (Error "Chart data must include a datasets array")
  else if length_is_zero (get (get config "data") "datasets") then
    Throw (Error "Chart data must include at least one dataset")
  else Normal config.

End Validator.

(** ** The generateChart tool *)

Inductive OutputFormat := png | html.

(** The envelope [generateChart] of chart-generator.js resolves to, with the
    fields the handler reads.  An absent field is [None]. *)
Record RenderResult := {
  success : bool;
  htmlSnippet : option string;
  buffer : option (list byte);
  pngFilePath : option string;
  message : string
}.

(** A content block of a tool result; an absent field is [None]. *)
Record ContentBlock := {
  type : string;
  text : option string;
  data : option string;
  mimeType : option string;
  _meta : option (list (string * string))
}.

Record CallToolResult := { content : list ContentBlock }.

Definition text_block (t : string) : ContentBlock :=
  {| type := "text"; text := Some t; data := None; mimeType := None; _meta := None |}.

Definition html_block (markup : string) : ContentBlock :=
  {| type := "text"; text := Some markup; data := None;
     mimeType := Some "text/html"; _meta := Some [("mimeType", "text/html")] |}.

Definition image_block (base64 : string) : ContentBlock :=
  {| type := "image"; text := None; data := Some base64;
     mimeType := Some "image/png"; _meta := None |}.

(** An optional string field used as a condition: present and not empty. *)
Definition truthy_field (o : option string) : option string :=
  match o with
  | Some s => if String.eqb s "" then None else Some s
  | None => None
  end.

Definition nl : string := String (ascii_of_nat 10) "".

Definition troubleshooting : string :=
  nl +:+ nl +:+
  "Please ensure your configuration follows the Chart.js v4 schema. Common issues:" +:+ nl +:+
  "- Check data format matches chart type (e.g., scatter charts need {x, y} objects)" +:+ nl +:+
  "- Verify all required dataset properties are provided" +:+ nl +:+
  "- Ensure chart type is supported: " +:+
  join ", " ["bar"; "line"; "scatter"; "bubble"; "pie"; "doughnut"; "polarArea"; "radar"].

Section Tool.

Variable JSON_parse : string -> option value.

(** [generateChart] is imported from chart-generator.js; the awaited call
    either resolves to an envelope or rejects. *)
Variable generateChart : value -> OutputFormat -> bool -> completion RenderResult.

Definition generateChartTool (chartConfig : value) (outputFormat : OutputFormat)
    (saveToFile : bool) : completion CallToolResult :=
  match validateChartConfig JSON_parse chartConfig with
  | Throw validationError =>
      Normal {| content := [text_block ("Error: " +:+ JS.message validationError)] |}
  | Normal parsedChartConfig =>
      result ← generateChart parsedChartConfig outputFormat saveToFile;
      if success result then
        match truthy_field (htmlSnippet result) with
        | Some markup => Normal {| content := [html_block markup] |}
        | None =>
            match buffer result with
            | Some bytes =>
                Normal {| content := [image_block (Buffer.toString_base64 bytes)] |}
            | None =>
                match truthy_field (pngFilePath result) with
                | Some path => Normal {| content := [text_block path] |}
                | None => Normal {| content := [text_block (message result)] |}
                end
            end
        end
      else
        Normal {| content := [text_block (message result +:+ troubleshooting)] |}
  end.

End Tool.

(** ** Transport and port selection at start-up *)

Module Startup.

Definition startsWith (prefix s : string) : bool := String.prefix prefix s.

(** [s.split(sep)] for a one-character separator. *)
Fixpoint split (sep : ascii) (s : string) : list string :=
  match s with
  | EmptyString => [""]
  | String c rest =>
      if Ascii.eqb c sep then "" :: split sep rest
      else match split sep rest with
           | piece :: pieces => String c piece :: pieces
           | [] => [String c ""]
           end
  end.

(** [a || b] on strings that may be undefined, and [a || 'literal']. *)
Definition or_else (a : option string) (b : option string) : option string :=
  match truthy_field a with
  | Some s => Some s
  | None => b
  end.

Definition or_default (a : option string) (b : string) : string :=
  match truthy_field a with
  | Some s => s
  | None => b
  end.

(** White space and line terminators, as UTF-8: one-byte ones, U+00A0, and
    the three-byte ones (U+1680, U+2000 to U+200A, U+2028, U+2029, U+202F,
    U+205F, U+3000, U+FEFF). *)
Definition ws1 (a : nat) : bool :=
  match a with
  | 9 | 10 | 11 | 12 | 13 | 32 => true
  | _ => false
  end%nat.

Definition ws3 (a b c : nat) : bool :=
  match a, b with
  | 225, 154 => Nat.eqb c 128
  | 226, 128 => (128 <=? c)%nat && (c <=? 138)%nat
                || Nat.eqb c 168 || Nat.eqb c 169 || Nat.eqb c 175
  | 226, 129 => Nat.eqb c 159
  | 227, 128 => Nat.eqb c 128
  | 239, 187 => Nat.eqb c 191
  | _, _ => false
  end%nat.

Fixpoint trimStart (s : string) : string :=
  match s with
  | String a r1 =>
      if ws1 (nat_of_ascii a) then trimStart r1
      else
        match r1 with
        | String b r2 =>
            if Nat.eqb (nat_of_ascii a) 194 && Nat.eqb (nat_of_ascii b) 160 then trimStart r2
            else
              match r2 with
              | String c r3 =>
                  if ws3 (nat_of_ascii a) (nat_of_ascii b) (nat_of_ascii c) then trimStart r3
                  else s
              | EmptyString => s
              end
        | EmptyString => s
        end
  | EmptyString => s
  end.

(** [parseInt(s, 10)]: leading white space, a sign, then the longest run of
    decimal digits; [NaN] when there is none. *)
Definition parseInt (s : string) : number :=
  let s1 := trimStart s in
  let '(neg, s2) :=
    match s1 with
    | String "-" r => (true, r)
    | String "+" r => (false, r)
    | _ => (false, s1)
    end in
  let '(v, n, _) := JSON.take_digits 0 0 s2 in
  if Nat.eqb n 0 then NaN
  else if (v =? 0)%Z then S754_zero neg
  else of_Z (if neg then - v else v).

Section Process.

(** [process.argv.slice(2)] and [process.env]. *)
Variable args : list string.
Variable env : gmap string string.

Definition transportArg : option string := List.find (startsWith "--transport=") args.
Definition portArg : option string := List.find (startsWith "--port=") args.

(** [arg?.split('=')[1]] *)
Definition flag_value (arg : option string) : option string :=
  a ← arg; split "=" a !! 1%nat.

Definition transport : string :=
  or_default (flag_value transportArg) "stdio".

Definition port : number :=
  parseInt (or_default (or_else (env !! "PORT") (flag_value portArg)) "3000").

Inductive Selected :=
| StdioServerTransport
| HttpServer (listen_port : number).

(** What [main] starts. *)
Definition main : Selected :=
  if String.eqb transport "streamable-http" then HttpServer port
  else StdioServerTransport.

End Process.

End Startup.

(** ** The HTTP request handler and its session registry *)

Module Http.

Record IncomingMessage := {
  method : string;
  pathname : string;                (* of [new URL(req.url || '/', ...)] *)
  mcp_session_id : option string    (* [req.headers['mcp-session-id']] *)
}.

(** The registry [transports], and for every transport created so far its
    [sessionId] field.  A transport object is identified by its rank in the
    order of creation. *)
Record State := {
  transports : gmap string nat;
  sessionId : list (option string)
}.

Definition initial : State := {| transports := ∅; sessionId := [] |}.

(** What the listener does besides updating the registry, in order. *)
Inductive Effect :=
| NewTransport (t : nat)                              (* new StreamableHTTPServerTransport, onclose set *)
| Connect (t : nat)                                   (* await server.connect(httpTransport) *)
| HandleRequest (t : nat) (req : IncomingMessage)     (* await httpTransport.handleRequest(req, res) *)
| WriteHead (status : Z) (headers : list (string * string))   (* res.writeHead *)
| EndJson (body : value).                             (* res.end(JSON.stringify(body)) *)

Definition json_header : list (string * string) :=
  [("Content-Type", "application/json")].

Definition no_session_body : value :=
  Obj [("jsonrpc", Str "2.0");
       ("error", Obj [("code", Num (of_Z (-32000)));
                      ("message", Str "Bad Request: No valid session. Send an initialization request first.")]);
       ("id", Null)].

(** The listener given to [createServer]. *)
Definition requestListener (req : IncomingMessage) (st : State) : State * list Effect :=
  if String.eqb (pathname req) "/mcp" then
    (* the header, when it is truthy *)
    let sid := truthy_field (mcp_session_id req) in
    match sid ≫= (fun s => transports st !! s) with
    | Some httpTransport =>
        (* sessionId && transports.has(sessionId) *)
        (st, [HandleRequest httpTransport req])
    | None =>
        (* !sessionId && req.method === 'POST' *)
        if negb (bool_decide (is_Some sid)) && String.eqb (method req) "POST" then
          let httpTransport := length (sessionId st) in
          ({| transports := transports st; sessionId := sessionId st ++ [None] |},
           [NewTransport httpTransport; Connect httpTransport;
            HandleRequest httpTransport req])
        else
          (st, [WriteHead 400 json_header; EndJson no_session_body])
    end
  else if String.eqb (pathname req) "/health" then
    (st, [WriteHead 200 json_header;
          EndJson (Obj [("status", Str "ok"); ("transport", Str "streamable-http")])])
  else
    (st, [WriteHead 404 json_header; EndJson (Obj [("error", Str "Not Found")])]).

(** The transport's initialization handshake: it takes the id its generator
    returned as its [sessionId] and calls [onsessioninitialized], which
    stores the transport under that id. *)
Definition onsessioninitialized (t : nat) (newSessionId : string) (st : State) : State :=
  {| transports := <[newSessionId := t]> (transports st);
     sessionId := <[t := Some newSessionId]> (sessionId st) |}.

(** [httpTransport.onclose] *)
Definition onclose (t : nat) (st : State) : State :=
  match truthy_field (mjoin (sessionId st !! t)) with
  | Some sid => {| transports := delete sid (transports st); sessionId := sessionId st |}
  | None => st
  end.

(** What happens to the server: a request arrives, a transport completes
    its handshake, a transport closes. *)
Inductive Event :=
| Request (req : IncomingMessage)
| SessionInitialized (t : nat) (sid : string)
| Closed (t : nat).

Definition step (st : State) (ev : Event) : State * list Effect :=
  match ev with
  | Request req => requestListener req st
  | SessionInitialized t sid => (onsessioninitialized t sid st, [])
  | Closed t => (onclose t st, [])
  end.

Definition run (st : State) (evs : list Event) : State :=
  fold_left (fun s ev => fst (step s ev)) evs st.

Definition reaches_transport (e : Effect) : bool :=
  match e with
  | NewTransport _ | Connect _ | HandleRequest _ _ => true
  | _ => false
  end.

(** Events that leave the session [sid] of transport [t] alone: requests,
    handshakes of other transports under other ids (the generator,
    [randomUUID], does not repeat an id), closures of other transports. *)
Definition foreign (t : nat) (sid : string) (ev : Event) : bool :=
  match ev with
  | Request _ => true
  | SessionInitialized t' sid' => negb (Nat.eqb t' t) && negb (String.eqb sid' sid)
  | Closed t' => negb (Nat.eqb t' t)
  end.

(** The states of a session: its transport is created and has no id yet;
    it is registered; its id is not in the registry. *)
Definition pending (t : nat) (sid : string) (st : State) : Prop :=
  sessionId st !! t = Some None
  /\ forall t', sessionId st !! t' <> Some (Some sid).

Definition active (t : nat) (sid : string) (st : State) : Prop :=
  transports st !! sid = Some t
  /\ sessionId st !! t = Some (Some sid)
  /\ forall t', t' <> t -> sessionId st !! t' <> Some (Some sid).

Definition absent (sid : string) (st : State) : Prop :=
  transports st !! sid = None.

End Http.

(** ** The validator's contract, as the specification words it

    Six checks in a fixed order; the first one that fails gives the message.
    "Object" is the language's notion: what [typeof] reports as an object,
    [null] excepted (so an array is one); "missing" is [undefined]. *)

Module ValidatorSpec.

Inductive check :=
| NotValidJson
| NotAnObject
| BadType
| NoDataObject
| NoDatasetsArray
| NoDataset.

Definition checks_in_order : list check :=
  [NotValidJson; NotAnObject; BadType; NoDataObject; NoDatasetsArray; NoDataset].

Definition check_message (c : check) : string :=
  match c with
  | NotValidJson => "Chart configuration string is not valid JSON"
  | NotAnObject => "Chart configuration must be an object"
  | BadType =>
      "Invalid chart type. Must be one of: bar, line, scatter, bubble, pie, doughnut, polarArea, radar"
  | NoDataObject => "Chart configuration must include a data object"
  | NoDatasetsArray => "Chart data must include a datasets array"
  | NoDataset => "Chart data must include at least one dataset"
  end.

Definition is_object (v : value) : bool :=
  match v with
  | Obj _ | Arr _ => true
  | _ => false
  end.

Definition is_missing (v : value) : bool :=
  match v with
  | Undefined => true
  | _ => false
  end.

Definition chart_kinds : list string :=
  ["bar"; "line"; "scatter"; "bubble"; "pie"; "doughnut"; "polarArea"; "radar"].

Definition is_chart_kind (v : value) : bool :=
  match v with
  | Str s => bool_decide (s ∈ chart_kinds)
  | _ => false
  end.

Section Checks.

Variable JSON_parse : string -> option value.

(** The value under validation: the parsed text for a string input, the
    input itself otherwise. *)
Definition subject (input : value) : option value :=
  match input with
  | Str s => JSON_parse s
  | _ => Some input
  end.

Definition fails (input : value) (c : check) : bool :=
  let v := default Undefined (subject input) in
  match c with
  | NotValidJson => bool_decide (subject input = None)
  | NotAnObject => negb (is_object v)
  | BadType => is_missing (get v "type") || negb (is_chart_kind (get v "type"))
  | NoDataObject => is_missing (get v "data") || negb (is_object (get v "data"))
  | NoDatasetsArray =>
      is_missing (get (get v "data") "datasets")
      || negb (isArray (get (get v "data") "datasets"))
  | NoDataset =>
      match get (get v "data") "datasets" with
      | Arr [] => true
      | _ => false
      end
  end.

Definition first_failing (input : value) : option check :=
  List.find (fails input) checks_in_order.

Definition validate (input : value) : completion value :=
  match first_failing input with
  | Some c => Throw (Error (check_message c))
  | None => Normal (default Undefined (subject input))
  end.

End Checks.

End ValidatorSpec.

(** ** The render adapter's contract *)

Module RenderSpec.

(** Modelled from the spec: [generateChart] lives in chart-generator.js,
    which is not among the sources.  The specification (section 3) makes
    its result a sum type with exactly one variant populated: the bytes of
    a png image or the path of the file they were saved to, the markup of
    an html fragment, or a failure carrying a message. *)
Inductive variant :=
| Png_bytes (bytes : list byte)
| Png_path (path : string)
| Html (markup : string)
| Failure (msg : string).

(** Modelled from the spec: the variant an envelope encodes, when exactly
    one is populated (section 3). *)
Definition variant_of (r : RenderResult) : option variant :=
  if success r then
    match htmlSnippet r, buffer r, pngFilePath r with
    | Some markup, None, None => Some (Html markup)
    | None, Some bytes, None => Some (Png_bytes bytes)
    | None, None, Some path => Some (Png_path path)
    | _, _, _ => None
    end
  else
    match htmlSnippet r, buffer r, pngFilePath r with
    | None, None, None => Some (Failure (message r))
    | _, _, _ => None
    end.

(** Modelled from the spec: the variants the adapter may yield for a format
    and a [saveToFile] flag (section 4.2).  The html format yields markup;
    the png format yields the bytes when [saveToFile] is false and a path
    when it is true, never both; either format may yield a failure, when
    the engine throws.  Markup and paths are not empty. *)
Definition allowed (format : OutputFormat) (saveToFile : bool) (v : variant) : bool :=
  match v with
  | Failure _ => true
  | Html markup =>
      match format with html => negb (String.eqb markup "") | png => false end
  | Png_bytes _ =>
      match format with png => negb saveToFile | html => false end
  | Png_path path =>
      match format with
      | png => saveToFile && negb (String.eqb path "")
      | html => false
      end
  end.

(** Modelled from the spec: an envelope conforms when it encodes an allowed
    variant. *)
Definition conforms (format : OutputFormat) (saveToFile : bool) (r : RenderResult) : bool :=
  match variant_of r with
  | Some v => allowed format saveToFile v
  | None => false
  end.

(** Modelled from the spec: a renderer honours the contract when every call
    resolves to a conforming envelope (section 4.2: a rendering exception
    never leaves the adapter). *)
Definition honours_contract
    (generateChart : value -> OutputFormat -> bool -> completion RenderResult) : Prop :=
  ∀ config format saveToFile,
    ∃ r, generateChart config format saveToFile = Normal r
         ∧ conforms format saveToFile r = true.

End RenderSpec.

(** ** Concrete inputs used in the examples *)

Module Examples.

Definition q : string := String JSON.dquote "".

(** [{type:"bar", data:{labels:["Q1","Q2"], datasets:[{label:"Sales", data:[50,75]}]}}] *)
Definition bar_chart : value :=
  Obj [("type", Str "bar");
       ("data", Obj [("labels", Arr [Str "Q1"; Str "Q2"]);
                     ("datasets", Arr [Obj [("label", Str "Sales");
                                            ("data", Arr [Num (of_Z 50); Num (of_Z 75)])]])])].

(** The same chart as JSON text. *)
Definition bar_chart_text : string :=
  "{" +:+ q +:+ "type" +:+ q +:+ ":" +:+ q +:+ "bar" +:+ q +:+ "," +:+
  q +:+ "data" +:+ q +:+ ":{" +:+ q +:+ "labels" +:+ q +:+ ":[" +:+
  q +:+ "Q1" +:+ q +:+ "," +:+ q +:+ "Q2" +:+ q +:+ "]," +:+
  q +:+ "datasets" +:+ q +:+ ":[{" +:+ q +:+ "label" +:+ q +:+ ":" +:+
  q +:+ "Sales" +:+ q +:+ "," +:+ q +:+ "data" +:+ q +:+ ":[50,75]}]}}".

(** The JSON text of the string [abc]: the three letters between quotes. *)
Definition quoted_abc : string := q +:+ "abc" +:+ q.

Definition png_bytes : list byte := [x89; x50; x4e; x47; x0d; x0a; x1a; x0a].

Definition png_result : RenderResult :=
  {| success := true; htmlSnippet := None; buffer := Some png_bytes;
     pngFilePath := None; message := "Chart generated successfully" |}.

Definition file_result : RenderResult :=
  {| success := true; htmlSnippet := None; buffer := None;
     pngFilePath := Some "/tmp/chart.png"; message := "Chart saved" |}.

Definition html_result : RenderResult :=
  {| success := true; htmlSnippet := Some "<div id='chart-container-1'></div>";
     buffer := None; pngFilePath := None; message := "HTML generated" |}.

Definition failure_result : RenderResult :=
  {| success := false; htmlSnippet := None; buffer := None;
     pngFilePath := None; message := "Error generating chart" |}.

Definition empty_result : RenderResult :=
  {| success := true; htmlSnippet := None; buffer := None;
     pngFilePath := None; message := "done" |}.

(** A renderer that succeeds with the variant the format asks for. *)
Definition working_render (config : value) (format : OutputFormat) (saveToFile : bool)
  : completion RenderResult :=
  Normal match format with
         | html => html_result
         | png => if saveToFile then file_result else png_result
         end.

(** A renderer whose engine rejects every configuration. *)
Definition failing_render (config : value) (format : OutputFormat) (saveToFile : bool)
  : completion RenderResult :=
  Normal failure_result.

(** A renderer whose envelope populates no payload field. *)
Definition empty_render (config : value) (format : OutputFormat) (saveToFile : bool)
  : completion RenderResult :=
  Normal empty_result.

Definition session : string := "3f1c9a52-7d0e-4b6a-9c1e-5a2b8d4e6f70".

Definition post_initialize : Http.IncomingMessage :=
  {| Http.method := "POST"; Http.pathname := "/mcp"; Http.mcp_session_id := None |}.

Definition with_session (m sid : string) : Http.IncomingMessage :=
  {| Http.method := m; Http.pathname := "/mcp"; Http.mcp_session_id := Some sid |}.

Definition get_without_session : Http.IncomingMessage :=
  {| Http.method := "GET"; Http.pathname := "/mcp"; Http.mcp_session_id := None |}.

End Examples.

(** ** The earlier revision of the tool

    The sources keep an earlier revision of index.ts (unnamed/part_000):
    the same validator, the stdio transport only, and a handler that tags
    the html block with its media type but gives it no [_meta]. *)

Module Earlier.

Definition html_block (markup : string) : ContentBlock :=
  {| type := "text"; text := Some markup; data := None;
     mimeType := Some "text/html"; _meta := None |}.

Section Tool.

Variable JSON_parse : string -> option value.
Variable generateChart : value -> OutputFormat -> bool -> completion RenderResult.

Definition generateChartTool (chartConfig : value) (outputFormat : OutputFormat)
    (saveToFile : bool) : completion CallToolResult :=
  match validateChartConfig JSON_parse chartConfig with
  | Throw validationError =>
      Normal {| content := [text_block ("Error: " +:+ JS.message validationError)] |}
  | Normal parsedChartConfig =>
      result ← generateChart parsedChartConfig outputFormat saveToFile;
      if success result then
        match truthy_field (htmlSnippet result) with
        | Some markup => Normal {| content := [html_block markup] |}
        | None =>
            match buffer result with
            | Some bytes =>
                Normal {| content := [image_block (Buffer.toString_base64 bytes)] |}
            | None =>
                match truthy_field (pngFilePath result) with
                | Some path => Normal {| content := [text_block path] |}
                | None => Normal {| content := [text_block (message result)] |}
                end
            end
        end
      else
        Normal {| content := [text_block (message result +:+ troubleshooting)] |}
  end.

End Tool.

(** A block without its [_meta]. *)
Definition without_meta (block : ContentBlock) : ContentBlock :=
  {| type := type block; text := text block; data := data block;
     mimeType := mimeType block; _meta := None |}.

End Earlier.

(** ** Texts without a given character *)

(** No character of [s] is [c]. *)
Definition free_of (c : ascii) (s : string) : bool :=
  forallb (fun x => negb (Ascii.eqb x c)) (list_ascii_of_string s).

(** ** Shutdown and the states the server can reach *)

Module Lifetime.
Import Http.

(** The events the SDK can produce in a state: a transport completes its
    handshake once, after its creation, under an id that is not empty. *)
Definition admissible (st : State) (ev : Event) : bool :=
  match ev with
  | SessionInitialized t sid =>
      bool_decide (sessionId st !! t = Some None) && negb (String.eqb sid "")
  | _ => true
  end.

Fixpoint admissible_run (st : State) (evs : list Event) : bool :=
  match evs with
  | [] => true
  | ev :: rest => admissible st ev && admissible_run (fst (step st ev)) rest
  end.

(** Every registered id is the [sessionId] of the transport it maps to. *)
Definition consistent (st : State) : Prop :=
  forall sid t, transports st !! sid = Some t ->
    sid <> "" /\ sessionId st !! t = Some (Some sid).

(** What the SIGINT handler does to the outside. *)
Inductive ShutdownEffect :=
| Log (line : string)          (* console.log(line) *)
| CloseTransport (t : nat)     (* await transport.close() *)
| CloseServer                  (* httpServer.close() *)
| Exit (code : Z).             (* process.exit(code) *)

(** [for (const transport of transports.values()) await transport.close()]:
    the iteration of a [Map] follows the order of insertion, given here as
    the list of the keys, and is live, so that an entry deleted before its
    turn is skipped.  Closing a transport makes it call [onclose]. *)
Fixpoint close_all (order : list string) (st : State) : State * list nat :=
  match order with
  | [] => (st, [])
  | sid :: rest =>
      match transports st !! sid with
      | Some t =>
          let '(st', closed) := close_all rest (onclose t st) in
          (st', t :: closed)
      | None => close_all rest st
      end
  end.

(** The handler of SIGINT, when no other event comes in between. *)
Definition sigint (order : list string) (st : State) : State * list ShutdownEffect :=
  let '(st', closed) := close_all order st in
  (st', (Log (nl +:+ "Shutting down server...") :: map CloseTransport closed
           ++ [CloseServer; Exit 0])%list).

End Lifetime.

(** * Properties *)

(** ** The parser: the fuel is enough *)

Module JSONFacts.
Import JS JSON.

Lemma skip_ws_le (s : string) : (String.length (skip_ws s) <= String.length s)%nat.
Proof.
  induction s as [|c s IH]; cbn; [lia|]. destruct (is_ws c); cbn; lia.
Qed.

Lemma tail_le (s : string) : (String.length (tail s) <= String.length s)%nat.
Proof. destruct s; cbn; lia. Qed.

Lemma tail_lt (c : ascii) (s : string) :
  starts_with_char c s = true -> (String.length (tail s) < String.length s)%nat.
Proof. destruct s; cbn; [discriminate|lia]. Qed.

Lemma take_digits_len (s : string) :
  forall acc n v n' s',
    take_digits acc n s = (v, n', s') -> (String.length s' + n' = String.length s + n)%nat.
Proof.
  induction s as [|c s IH]; intros acc n v n' s'; cbn.
  - intros [= <- <- <-]. reflexivity.
  - destruct (is_digit c).
    + intros H. apply IH in H. lia.
    + intros [= <- <- <-]. reflexivity.
Qed.

Lemma strip_prefix_len (p : string) :
  forall s rest, strip_prefix p s = Some rest -> (String.length rest + String.length p = String.length s)%nat.
Proof.
  induction p as [|a p IH]; intros s rest; cbn.
  - intros [= ->]. lia.
  - destruct s as [|b s]; [discriminate|]. destruct (Ascii.eqb a b); [|discriminate].
    intros H. apply IH in H. cbn. lia.
Qed.

Lemma keyword_lt k v s x rest :
  k <> "" -> keyword k v s = Some (x, rest) -> (String.length rest < String.length s)%nat.
Proof.
  unfold keyword. intros Hk. destruct (strip_prefix k s) as [r|] eqn:H; [|discriminate].
  intros [= _ <-]. apply strip_prefix_len in H. destruct k; [contradiction|]. cbn in H. lia.
Qed.

Lemma parse_exponent_le neg m nf s x rest :
  parse_exponent neg m nf s = Some (x, rest) -> (String.length rest <= String.length s)%nat.
Proof.
  unfold parse_exponent.
  destruct (take_digits 0 0 _) as [[ev ne] s2] eqn:Hd.
  destruct (Nat.eqb ne 0); [discriminate|]. intros [= _ <-].
  apply take_digits_len in Hd.
  assert (Ht := tail_le s).
  destruct (_ || _); lia.
Qed.

Lemma parse_number_body_lt neg s x rest :
  parse_number_body neg s = Some (x, rest) -> (String.length rest < String.length s)%nat.
Proof.
  unfold parse_number_body.
  destruct (take_digits 0 0 s) as [[ip ni] s1] eqn:Hd.
  apply take_digits_len in Hd.
  destruct (Nat.eqb_spec ni 0) as [->|Hni]; [discriminate|]. cbn [orb].
  destruct (_ && _); [discriminate|].
  destruct (if starts_with_char "." s1 then _ else _) as [[m nf] s3] eqn:Hfrac.
  assert (String.length s3 <= String.length s1)%nat as Hs3.
  { destruct (starts_with_char "." s1).
    - apply take_digits_len in Hfrac. assert (Ht := tail_le s1). lia.
    - injection Hfrac as <- <- <-. lia. }
  destruct (_ && _); [discriminate|].
  destruct (_ || _).
  - intros H. apply parse_exponent_le in H. assert (Ht := tail_le s3). lia.
  - intros [= _ <-]. lia.
Qed.

Lemma parse_number_lt s x rest :
  parse_number s = Some (x, rest) -> (String.length rest < String.length s)%nat.
Proof.
  unfold parse_number. destruct (starts_with_char "-" s).
  - intros H. apply parse_number_body_lt in H. assert (Ht := tail_le s). lia.
  - apply parse_number_body_lt.
Qed.

Lemma prepend_Some front r str rest :
  prepend front r = Some (str, rest) -> exists str', r = Some (str', rest).
Proof. destruct r as [[str' rest']|]; cbn; [|discriminate]. intros [= _ <-]. eauto. Qed.

Lemma parse_chars_lt_bounded (n : nat) :
  forall s str rest,
    (String.length s <= n)%nat -> parse_chars s = Some (str, rest) -> (String.length rest < String.length s)%nat.
Proof.
  induction n as [|n IH]; intros s str rest Hn.
  - destruct s; [discriminate|cbn in Hn; lia].
  - assert (forall s' str' rest', (String.length s' < String.length s)%nat ->
              parse_chars s' = Some (str', rest') -> (String.length rest' < String.length s')%nat) as IH'.
    { intros s' str' rest' Hlt. apply IH. lia. }
    clear IH Hn.
    destruct s as [|c s]; [discriminate|]. cbn [parse_chars].
    destruct (Ascii.eqb c dquote). { intros [= _ <-]. cbn. lia. }
    destruct (Ascii.eqb c backslash).
    + destruct s as [|e s1]; [discriminate|].
      destruct (Ascii.eqb e "u").
      * destruct s1 as [|h1 [|h2 [|h3 [|h4 s2]]]]; try discriminate.
        destruct (hex4 h1 h2 h3 h4) as [u|]; [|discriminate].
        assert (forall front, prepend front (parse_chars s2) = Some (str, rest) ->
                  (String.length rest < String.length (String c (String e (String h1 (String h2 (String h3 (String h4 s2)))))))%nat)
          as Hsingle.
        { intros front H. apply prepend_Some in H as [str' H].
          apply IH' in H; cbn; cbn in H; lia. }
        destruct (is_high_surrogate u); [|apply Hsingle].
        destruct s2 as [|b [|v [|l1 [|l2 [|l3 [|l4 s3]]]]]]; try apply Hsingle.
        destruct (hex4 l1 l2 l3 l4) as [lo|]; [|apply Hsingle].
        destruct (_ && _); [|apply Hsingle].
        intros H. apply prepend_Some in H as [str' H].
        apply IH' in H; cbn; cbn in H; lia.
      * destruct (escape_char e); [|discriminate].
        intros H. apply prepend_Some in H as [str' H].
        apply IH' in H; cbn; cbn in H; lia.
    + destruct (_ <? _)%nat; [discriminate|].
      intros H. apply prepend_Some in H as [str' H].
      apply IH' in H; cbn; cbn in H; lia.
Qed.

Lemma parse_chars_lt s str rest :
  parse_chars s = Some (str, rest) -> (String.length rest < String.length s)%nat.
Proof. apply (parse_chars_lt_bounded (String.length s)). lia. Qed.


Section StepFacts.

Variable value_ value' : string -> option (value * string).
Variable elements_ elements' : string -> list value -> option (value * string).
Variable members_ members' : string -> list (string * value) -> option (value * string).

Lemma value_step_lt :
  (forall acc, consumes (fun s => elements_ s acc)) ->
  (forall acc, consumes (fun s => members_ s acc)) ->
  consumes (value_step elements_ members_).
Proof.
  intros Hel Hmem s x rest. unfold value_step.
  assert (Hws := skip_ws_le s).
  destruct (skip_ws s) as [|c s1]; [discriminate|]. cbn [String.length] in Hws.
  assert (Hws1 := skip_ws_le s1).
  destruct (Ascii.eqb c "{").
  { destruct (starts_with_char "}" (skip_ws s1)) eqn:Hclose.
    - intros [= _ <-]. apply tail_lt in Hclose. lia.
    - intros H. apply Hmem in H. lia. }
  destruct (Ascii.eqb c "[").
  { destruct (starts_with_char "]" (skip_ws s1)) eqn:Hclose.
    - intros [= _ <-]. apply tail_lt in Hclose. lia.
    - intros H. apply Hel in H. lia. }
  destruct (Ascii.eqb c dquote).
  { destruct (parse_chars s1) as [[str r]|] eqn:Hstr; [|discriminate].
    intros [= _ <-]. apply parse_chars_lt in Hstr. lia. }
  destruct (Ascii.eqb c "t").
  { intros H. apply keyword_lt in H; [cbn [String.length] in H; lia|discriminate]. }
  destruct (Ascii.eqb c "f").
  { intros H. apply keyword_lt in H; [cbn [String.length] in H; lia|discriminate]. }
  destruct (Ascii.eqb c "n").
  { intros H. apply keyword_lt in H; [cbn [String.length] in H; lia|discriminate]. }
  destruct (parse_number (String c s1)) as [[n r]|] eqn:Hnum; [|discriminate].
  intros [= _ <-]. apply parse_number_lt in Hnum. cbn [String.length] in Hnum. lia.
Qed.

Lemma elements_step_lt :
  consumes value_ ->
  (forall acc, consumes (fun s => elements_ s acc)) ->
  forall acc, consumes (fun s => elements_step value_ elements_ s acc).
Proof.
  intros Hval Hel acc s x rest. unfold elements_step.
  destruct (value_ s) as [[v r]|] eqn:Hv; [|discriminate].
  apply Hval in Hv. assert (Hws := skip_ws_le r). assert (Ht := tail_le (skip_ws r)).
  destruct (starts_with_char "," (skip_ws r)).
  { intros H. apply Hel in H. lia. }
  destruct (starts_with_char "]" (skip_ws r)); [|discriminate].
  intros [= _ <-]. lia.
Qed.

Lemma members_step_lt :
  consumes value_ ->
  (forall acc, consumes (fun s => members_ s acc)) ->
  forall acc, consumes (fun s => members_step value_ members_ s acc).
Proof.
  intros Hval Hmem acc s x rest. unfold members_step.
  assert (Hws := skip_ws_le s). assert (Ht := tail_le (skip_ws s)).
  destruct (starts_with_char dquote (skip_ws s)); [|discriminate].
  destruct (parse_chars (tail (skip_ws s))) as [[k r1]|] eqn:Hk; [|discriminate].
  apply parse_chars_lt in Hk.
  assert (Hws1 := skip_ws_le r1). assert (Ht1 := tail_le (skip_ws r1)).
  destruct (starts_with_char ":" (skip_ws r1)); [|discriminate].
  destruct (value_ (tail (skip_ws r1))) as [[v r3]|] eqn:Hv; [|discriminate].
  apply Hval in Hv.
  assert (Hws3 := skip_ws_le r3). assert (Ht3 := tail_le (skip_ws r3)).
  destruct (starts_with_char "," (skip_ws r3)).
  { intros H. apply Hmem in H. lia. }
  destruct (starts_with_char "}" (skip_ws r3)); [|discriminate].
  intros [= _ <-]. lia.
Qed.

(** Each step calls the other parsers on shorter texts only, [elements_step]
    its value parser apart, which gets the same text. *)
Lemma value_step_ext (s : string) :
  (forall s' acc, (String.length s' < String.length s)%nat -> elements_ s' acc = elements' s' acc) ->
  (forall s' acc, (String.length s' < String.length s)%nat -> members_ s' acc = members' s' acc) ->
  value_step elements_ members_ s = value_step elements' members' s.
Proof.
  intros Hel Hmem. unfold value_step.
  assert (Hws := skip_ws_le s).
  destruct (skip_ws s) as [|c s1]; [reflexivity|]. cbn [String.length] in Hws.
  rewrite Hel, Hmem by lia. reflexivity.
Qed.

Lemma elements_step_ext (s : string) (acc : list value) :
  value_ s = value' s ->
  consumes value_ ->
  (forall s' acc', (String.length s' < String.length s)%nat -> elements_ s' acc' = elements' s' acc') ->
  elements_step value_ elements_ s acc = elements_step value' elements' s acc.
Proof.
  intros Hval Hcons Hel. unfold elements_step. rewrite <- Hval.
  destruct (value_ s) as [[v r]|] eqn:Hv; [|reflexivity].
  apply Hcons in Hv. assert (Hws := skip_ws_le r). assert (Ht := tail_le (skip_ws r)).
  rewrite Hel by lia. reflexivity.
Qed.

Lemma members_step_ext (s : string) (acc : list (string * value)) :
  (forall s', (String.length s' < String.length s)%nat -> value_ s' = value' s') ->
  consumes value_ ->
  (forall s' acc', (String.length s' < String.length s)%nat -> members_ s' acc' = members' s' acc') ->
  members_step value_ members_ s acc = members_step value' members' s acc.
Proof.
  intros Hval Hcons Hmem. unfold members_step.
  assert (Hws := skip_ws_le s).
  destruct (starts_with_char dquote (skip_ws s)) eqn:Hq; [|reflexivity].
  apply tail_lt in Hq.
  destruct (parse_chars (tail (skip_ws s))) as [[k r1]|] eqn:Hk; [|reflexivity].
  apply parse_chars_lt in Hk.
  assert (Hws1 := skip_ws_le r1). assert (Ht1 := tail_le (skip_ws r1)).
  rewrite <- Hval by lia.
  destruct (starts_with_char ":" (skip_ws r1)); [|reflexivity].
  destruct (value_ (tail (skip_ws r1))) as [[v r3]|] eqn:Hv; [|reflexivity].
  apply Hcons in Hv.
  assert (Hws3 := skip_ws_le r3). assert (Ht3 := tail_le (skip_ws r3)).
  rewrite Hmem by lia. reflexivity.
Qed.

End StepFacts.

(** Whatever the fuel, a parser that succeeds has consumed something. *)
Lemma parsers_consume (n : nat) :
  consumes (parse_value n)
  /\ (forall acc, consumes (fun s => parse_elements n s acc))
  /\ (forall acc, consumes (fun s => parse_members n s acc)).
Proof.
  induction n as [|n (IHv & IHe & IHm)].
  - repeat split; intros; intros s x rest; discriminate.
  - split; [|split].
    + apply value_step_lt; assumption.
    + apply elements_step_lt; assumption.
    + apply members_step_lt; assumption.
Qed.

(** Beyond [2 * length + 1] for a value and [2 * length + 2] for elements
    and members, more fuel changes nothing. *)
Lemma fuel_enough (k : nat) :
  forall s, (String.length s < k)%nat ->
    (forall n m, (2 * String.length s + 1 <= n)%nat -> (n <= m)%nat ->
       parse_value m s = parse_value n s)
    /\ (forall acc n m, (2 * String.length s + 2 <= n)%nat -> (n <= m)%nat ->
          parse_elements m s acc = parse_elements n s acc)
    /\ (forall acc n m, (2 * String.length s + 2 <= n)%nat -> (n <= m)%nat ->
          parse_members m s acc = parse_members n s acc).
Proof.
  induction k as [|k IH]; intros s Hk; [lia|].
  assert (forall n m, (2 * String.length s + 1 <= n)%nat -> (n <= m)%nat ->
            parse_value m s = parse_value n s) as Hvalue.
  { intros [|n] [|m] Hn Hm; try lia. cbn [parse_value].
    apply value_step_ext; intros s' acc Hlt; apply (IH s'); lia. }
  split; [exact Hvalue|]. split.
  - intros acc [|n] [|m] Hn Hm; try lia. cbn [parse_elements].
    apply elements_step_ext.
    + apply Hvalue; lia.
    + apply parsers_consume.
    + intros s' acc' Hlt. apply (IH s'); lia.
  - intros acc [|n] [|m] Hn Hm; try lia. cbn [parse_members].
    apply members_step_ext.
    + intros s' Hlt. apply (IH s'); lia.
    + apply parsers_consume.
    + intros s' acc' Hlt. apply (IH s'); lia.
Qed.

(** The fuel [parse] gives is enough: with more, the result is the same. *)
Lemma parse_value_fuel (text : string) (n : nat) :
  (2 * String.length text + 2 <= n)%nat ->
  parse_value n text = parse_value (2 * String.length text + 2) text.
Proof.
  intros Hn. apply (fuel_enough (S (String.length text)) text); lia.
Qed.

End JSONFacts.

(** ** Base64 *)

Module BufferFacts.
Import Buffer.

Lemma sextet_inverse (n : N) :
  (n < 64)%N -> sextet_of (sextet n) = Some n /\ Ascii.eqb (sextet n) "=" = false.
Proof.
  intros Hn. destruct n as [|p]; [split; reflexivity|].
  do 6 (destruct p as [p|p|]; try (split; reflexivity)); lia.
Qed.

Lemma list_ind3 {A} (P : list A -> Prop) :
  P [] -> (forall a, P [a]) -> (forall a b, P [a; b]) ->
  (forall a b c l, P l -> P (a :: b :: c :: l)) ->
  forall l, P l.
Proof.
  intros H0 H1 H2 H3.
  assert (forall l, P l /\ (forall a, P (a :: l)) /\ (forall a b, P (a :: b :: l))) as H.
  { induction l as [|x l (IH0 & IH1 & IH2)]; [auto|]. split; [apply IH1|].
    split; [intros; apply IH2|]. intros a b. apply H3. exact IH0. }
  intros l. apply H.
Qed.

Lemma regroup (x y z : N) :
  (x <= 255 -> y <= 255 -> z <= 255 ->
   x / 4 < 64 /\ (x mod 4) * 16 + y / 16 < 64 /\ (y mod 16) * 4 + z / 64 < 64 /\ z mod 64 < 64
   /\ x / 4 * 4 + ((x mod 4) * 16 + y / 16) / 16 = x
   /\ (((x mod 4) * 16 + y / 16) mod 16) * 16 + ((y mod 16) * 4 + z / 64) / 4 = y
   /\ (((y mod 16) * 4 + z / 64) mod 4) * 64 + z mod 64 = z)%N.
Proof.
  intros Hx Hy Hz. repeat split; zify; Z.to_euclidean_division_equations; lia.
Qed.


Lemma decode_group (x y z : byte) (rest : string) :
  from_base64
    (String (sextet (Byte.to_N x / 4))
       (String (sextet ((Byte.to_N x mod 4) * 16 + Byte.to_N y / 16))
          (String (sextet ((Byte.to_N y mod 16) * 4 + Byte.to_N z / 64))
             (String (sextet (Byte.to_N z mod 64)) rest))))
  = tl ← from_base64 rest; Some (x :: y :: z :: tl).
Proof.
  destruct (regroup (Byte.to_N x) (Byte.to_N y) (Byte.to_N z))
    as (H1 & H2 & H3 & H4 & Hx & Hy & Hz); try apply Byte.to_N_bounded.
  destruct (sextet_inverse _ H1) as [E1 _], (sextet_inverse _ H2) as [E2 _],
    (sextet_inverse _ H3) as [E3 N3], (sextet_inverse _ H4) as [E4 N4].
  cbn [from_base64]. rewrite E1, E2, E3, E4, N3, N4. cbn [mbind option_bind].
  rewrite Hx, Hy, Hz, !Byte.of_to_N. reflexivity.
Qed.

Lemma decode_one (x : byte) :
  from_base64
    (String (sextet (Byte.to_N x / 4)) (String (sextet ((Byte.to_N x mod 4) * 16)) "=="))
  = Some [x].
Proof.
  destruct (regroup (Byte.to_N x) 0 0)
    as (H1 & H2 & _ & _ & Hx & _ & _); try apply Byte.to_N_bounded; try lia.
  change (0 / 16)%N with 0%N in *. rewrite N.add_0_r in *.
  destruct (sextet_inverse _ H1) as [E1 _], (sextet_inverse _ H2) as [E2 _].
  cbn [from_base64]. rewrite E1, E2. cbn [mbind option_bind].
  rewrite Hx, Byte.of_to_N. reflexivity.
Qed.

Lemma decode_two (x y : byte) :
  from_base64
    (String (sextet (Byte.to_N x / 4))
       (String (sextet ((Byte.to_N x mod 4) * 16 + Byte.to_N y / 16))
          (String (sextet ((Byte.to_N y mod 16) * 4)) "=")))
  = Some [x; y].
Proof.
  destruct (regroup (Byte.to_N x) (Byte.to_N y) 0)
    as (H1 & H2 & H3 & _ & Hx & Hy & _); try apply Byte.to_N_bounded; try lia.
  change (0 / 64)%N with 0%N in *. rewrite N.add_0_r in *.
  destruct (sextet_inverse _ H1) as [E1 _], (sextet_inverse _ H2) as [E2 _],
    (sextet_inverse _ H3) as [E3 N3].
  cbn [from_base64]. rewrite E1, E2, E3, N3. cbn [mbind option_bind].
  rewrite Hx, Hy, !Byte.of_to_N. reflexivity.
Qed.

(** Decoding what [toString('base64')] wrote gives the bytes back. *)
Theorem base64_roundtrip (bytes : list byte) :
  from_base64 (toString_base64 bytes) = Some bytes.
Proof.
  induction bytes as [|x|x y|x y z rest IH] using list_ind3.
  - reflexivity.
  - apply decode_one.
  - apply decode_two.
  - cbn [toString_base64]. rewrite decode_group, IH. reflexivity.
Qed.


(** The test vectors of RFC 4648. *)
Example rfc4648_vectors :
  toString_base64 [] = ""
  /\ toString_base64 ["f"%byte] = "Zg=="
  /\ toString_base64 ["f"; "o"]%byte = "Zm8="
  /\ toString_base64 ["f"; "o"; "o"]%byte = "Zm9v"
  /\ toString_base64 ["f"; "o"; "o"; "b"]%byte = "Zm9vYg=="
  /\ toString_base64 ["f"; "o"; "o"; "b"; "a"]%byte = "Zm9vYmE="
  /\ toString_base64 ["f"; "o"; "o"; "b"; "a"; "r"]%byte = "Zm9vYmFy".
Proof. repeat split. Qed.

End BufferFacts.

(** ** The validator *)

Import ValidatorSpec.

Lemma includes_elem_of (l : list string) (s : string) :
  includes l (Str s) = bool_decide (s ∈ l).
Proof.
  cbn [includes]. induction l as [|k l IH]; cbn [existsb].
  - symmetry. apply bool_decide_eq_false. apply not_elem_of_nil.
  - destruct (String.eqb_spec s k) as [->|Hne]; cbn [orb].
    + symmetry. apply bool_decide_eq_true. left.
    + rewrite IH. apply bool_decide_ext. rewrite elem_of_cons.
      split; [auto | intros [Heq|Hin]; [contradiction | exact Hin]].
Qed.

(** [!v || !validTypes.includes(v)] says that [v] is missing or is not one
    of the eight kinds. *)
Lemma type_test (t : value) :
  negb (truthy t) || negb (includes validTypes t)
  = is_missing t || negb (is_chart_kind t).
Proof.
  destruct t as [| |b|n|s|l|o]; try reflexivity.
  - cbn [truthy includes is_missing is_chart_kind]. destruct b; reflexivity.
  - cbn [includes is_missing is_chart_kind orb]. apply orb_true_r.
  - rewrite includes_elem_of. cbn [truthy is_missing is_chart_kind orb].
    destruct (String.eqb_spec s "") as [->|_]; reflexivity.
Qed.

(** [!v || typeof v !== 'object'] says that [v] is missing or is not an
    object. *)
Lemma object_test (v : value) :
  negb (truthy v) || negb (String.eqb (typeof v) "object")
  = is_missing v || negb (is_object v).
Proof.
  destruct v as [| |b|n|s|l|o]; try reflexivity.
  - destruct b; reflexivity.
  - cbn. apply orb_true_r.
  - cbn. apply orb_true_r.
Qed.

Lemma object_test_top (v : value) :
  negb (truthy v) || negb (String.eqb (typeof v) "object") = negb (is_object v).
Proof. rewrite object_test. destruct v; reflexivity. Qed.

(** [!v || !Array.isArray(v)] says that [v] is missing or is not an array. *)
Lemma array_test (v : value) :
  negb (truthy v) || negb (isArray v) = is_missing v || negb (isArray v).
Proof.
  destruct v as [| |b|n|s|l|o]; try reflexivity; cbn; apply orb_true_r.
Qed.

(** On an array, [v.length === 0] says that it is empty. *)
Lemma empty_test (v : value) :
  isArray v = true ->
  length_is_zero v = match v with Arr [] => true | _ => false end.
Proof. destruct v as [| |b|n|s|l|o]; try discriminate. intros _. destruct l; reflexivity. Qed.



(** An input that fails no check has a value under validation: for a
    string, the text parsed. *)
Lemma passing_input_has_subject (JSON_parse : string -> option value) (input : value) :
  List.find (fails JSON_parse input) checks_in_order = None ->
  is_Some (subject JSON_parse input).
Proof.
  unfold checks_in_order. cbn [List.find fails].
  destruct (subject JSON_parse input) as [v|]; [eauto|].
  rewrite bool_decide_eq_true_2 by reflexivity. discriminate.
Qed.

(** An array is an object for [typeof]: an array given as configuration
    passes the second check and fails the third. *)
Example array_configuration_fails_on_type (JSON_parse : string -> option value) :
  validateChartConfig JSON_parse (Arr []) = Throw (Error (check_message BadType)).
Proof. reflexivity. Qed.

(** The scenarios of the specification. *)
Example scenario_missing_datasets :
  validateChartConfig JSON.parse (Obj [("type", Str "line"); ("data", Obj [])])
  = Throw (Error "Chart data must include a datasets array").
Proof. reflexivity. Qed.

Example scenario_empty_datasets :
  validateChartConfig JSON.parse
    (Obj [("type", Str "pie"); ("data", Obj [("datasets", Arr [])])])
  = Throw (Error "Chart data must include at least one dataset").
Proof. reflexivity. Qed.

Example scenario_unknown_type :
  validateChartConfig JSON.parse
    (Obj [("type", Str "flowchart");
          ("data", Obj [("datasets", Arr [Obj [("data", Arr [Num (of_Z 1)])]])])])
  = Throw (Error "Invalid chart type. Must be one of: bar, line, scatter, bubble, pie, doughnut, polarArea, radar").
Proof. reflexivity. Qed.

Example scenario_bar_chart :
  validateChartConfig JSON.parse Examples.bar_chart = Normal Examples.bar_chart.
Proof. reflexivity. Qed.

Example scenario_bar_chart_text :
  validateChartConfig JSON.parse (Str Examples.bar_chart_text) = Normal Examples.bar_chart.
Proof. vm_compute. reflexivity. Qed.

(** C10, as amended.  For every string [s] that parses as JSON to a value
    that is not itself a string, validating [s] gives the outcome of
    validating the parsed value: the same configuration returned, or the
    same error. *)
Theorem validate_text_as_parsed_value
    (JSON_parse : string -> option value) (s : string) (v : value) :
  JSON_parse s = Some v ->
  typeof v <> "string" ->
  validateChartConfig JSON_parse (Str s) = validateChartConfig JSON_parse v.
Proof.
  intros Hparse Hkind. unfold validateChartConfig.
  cbn [typeof]. rewrite Hparse.
  destruct v; try reflexivity. contradiction Hkind. reflexivity.
Qed.

Lemma validate_text_as_parsed_value_witness :
  JSON.parse Examples.bar_chart_text = Some Examples.bar_chart
  /\ typeof Examples.bar_chart <> "string"
  /\ validateChartConfig JSON.parse (Str Examples.bar_chart_text)
     = validateChartConfig JSON.parse Examples.bar_chart.
Proof.
  assert (Hparse : JSON.parse Examples.bar_chart_text = Some Examples.bar_chart)
    by (vm_compute; reflexivity).
  assert (Hkind : typeof Examples.bar_chart <> "string") by discriminate.
  split; [exact Hparse|]. split; [exact Hkind|].
  exact (validate_text_as_parsed_value JSON.parse _ _ Hparse Hkind).
Defined.

(** C10 as stated fails on a text whose value is a string.  The text of
    the three letters [abc] between quotes parses to the string [abc]; the
    text is refused for not being an object, whereas the string [abc],
    given directly, is parsed in its turn and refused for not being
    JSON. *)
Lemma quoted_text_validated_differently :
  JSON.parse Examples.quoted_abc = Some (Str "abc")
  /\ validateChartConfig JSON.parse (Str Examples.quoted_abc)
     = Throw (Error "Chart configuration must be an object")
  /\ validateChartConfig JSON.parse (Str "abc")
     = Throw (Error "Chart configuration string is not valid JSON")
  /\ validateChartConfig JSON.parse (Str Examples.quoted_abc)
     <> validateChartConfig JSON.parse (Str "abc").
Proof.
  split; [vm_compute; reflexivity|].
  split; [vm_compute; reflexivity|].
  split; [vm_compute; reflexivity|].
  vm_compute. discriminate.
Qed.

(** ** The tool handler *)

(** Runs the handler up to the envelope of the render. *)
Ltac run_tool Hvalid Hrender :=
  unfold generateChartTool; rewrite Hvalid;
  unfold mbind, completion_bind, bind; rewrite Hrender.

Section ToolFacts.

Variable JSON_parse : string -> option value.
Variable generateChart : value -> OutputFormat -> bool -> completion RenderResult.

(** C2.  Whenever validation of [chartConfig] fails, the handler returns
    normally, with exactly one content block, of kind "text", whose text is
    "Error: " followed by the validator's message: the error does not leave
    the handler as an exception. *)
Theorem validation_error_is_answered chartConfig outputFormat saveToFile e :
  validateChartConfig JSON_parse chartConfig = Throw e ->
  generateChartTool JSON_parse generateChart chartConfig outputFormat saveToFile
  = Normal {| content := [ {| type := "text";
                              text := Some ("Error: " +:+ JS.message e);
                              data := None; mimeType := None; _meta := None |} ] |}.
Proof. intros H. unfold generateChartTool. rewrite H. reflexivity. Qed.

(** C5.  For every valid configuration whose render yields the failure
    variant, the handler returns exactly one text block: the failure message
    followed by the troubleshooting text, which is fixed, names the common
    pitfalls of data shape and ends with the eight chart types. *)
Theorem render_failure_is_answered chartConfig outputFormat saveToFile parsed result :
  validateChartConfig JSON_parse chartConfig = Normal parsed ->
  generateChart parsed outputFormat saveToFile = Normal result ->
  success result = false ->
  generateChartTool JSON_parse generateChart chartConfig outputFormat saveToFile
  = Normal {| content := [ {| type := "text";
                              text := Some (message result +:+ troubleshooting);
                              data := None; mimeType := None; _meta := None |} ] |}
  /\ troubleshooting
     = nl +:+ nl +:+
       "Please ensure your configuration follows the Chart.js v4 schema. Common issues:" +:+ nl +:+
       "- Check data format matches chart type (e.g., scatter charts need {x, y} objects)" +:+ nl +:+
       "- Verify all required dataset properties are provided" +:+ nl +:+
       "- Ensure chart type is supported: bar, line, scatter, bubble, pie, doughnut, polarArea, radar"
  /\ exists pitfalls, troubleshooting = pitfalls +:+ join ", " validTypes.
Proof.
  intros Hv Hr Hs. split; [|split; [reflexivity|]].
  - run_tool Hv Hr. rewrite Hs. reflexivity.
  - exists (String.substring 0
              (String.length troubleshooting - String.length (join ", " validTypes))
              troubleshooting).
    vm_compute. reflexivity.
Qed.

(** C9.  Whatever the configuration, the format, the flag and the envelope
    of the render, the handler returns a result whose content has exactly
    one block; a successful envelope with none of [htmlSnippet], [buffer]
    and [pngFilePath] populated is answered by a text block carrying its
    message. *)
Theorem one_content_block chartConfig outputFormat saveToFile :
  (forall parsed, validateChartConfig JSON_parse chartConfig = Normal parsed ->
     exists result, generateChart parsed outputFormat saveToFile = Normal result) ->
  (exists response,
     generateChartTool JSON_parse generateChart chartConfig outputFormat saveToFile
     = Normal response
     /\ length (content response) = 1%nat)
  /\ (forall parsed result,
        validateChartConfig JSON_parse chartConfig = Normal parsed ->
        generateChart parsed outputFormat saveToFile = Normal result ->
        success result = true ->
        htmlSnippet result = None -> buffer result = None -> pngFilePath result = None ->
        generateChartTool JSON_parse generateChart chartConfig outputFormat saveToFile
        = Normal {| content := [text_block (message result)] |}).
Proof.
  intros Hrender. split.
  - destruct (validateChartConfig JSON_parse chartConfig) as [parsed|e] eqn:Hv.
    + destruct (Hrender parsed eq_refl) as [result Hr].
      run_tool Hv Hr.
      destruct (success result); [|eexists; split; reflexivity].
      destruct (truthy_field (htmlSnippet result)); [eexists; split; reflexivity|].
      destruct (buffer result); [eexists; split; reflexivity|].
      destruct (truthy_field (pngFilePath result)); eexists; split; reflexivity.
    + unfold generateChartTool. rewrite Hv. eexists; split; reflexivity.
  - intros parsed result Hv Hr Hs Hh Hb Hp.
    run_tool Hv Hr. rewrite Hs, Hh, Hb, Hp. reflexivity.
Qed.



Lemma truthy_field_Some (s : string) : s <> "" -> truthy_field (Some s) = Some s.
Proof. intros H. cbn. destruct (String.eqb_spec s ""); [contradiction|reflexivity]. Qed.



End ToolFacts.

Import Examples.

Lemma validation_error_is_answered_witness :
  validateChartConfig JSON.parse (Obj [("type", Str "line"); ("data", Obj [])])
  = Throw (Error "Chart data must include a datasets array")
  /\ generateChartTool JSON.parse working_render
       (Obj [("type", Str "line"); ("data", Obj [])]) png false
     = Normal {| content := [text_block "Error: Chart data must include a datasets array"] |}.
Proof.
  split; [reflexivity|].
  apply (validation_error_is_answered JSON.parse working_render _ png false
           (Error "Chart data must include a datasets array")).
  reflexivity.
Defined.

Lemma render_failure_is_answered_witness :
  validateChartConfig JSON.parse bar_chart = Normal bar_chart
  /\ failing_render bar_chart png false = Normal failure_result
  /\ success failure_result = false
  /\ generateChartTool JSON.parse failing_render bar_chart png false
     = Normal {| content := [text_block ("Error generating chart" +:+ troubleshooting)] |}.
Proof.
  split; [reflexivity|]. split; [reflexivity|]. split; [reflexivity|].
  apply (render_failure_is_answered JSON.parse failing_render bar_chart png false
           bar_chart failure_result); reflexivity.
Defined.

Lemma one_content_block_witness :
  (exists response,
     generateChartTool JSON.parse empty_render (Str bar_chart_text) png false = Normal response
     /\ length (content response) = 1%nat)
  /\ generateChartTool JSON.parse empty_render (Str bar_chart_text) png false
     = Normal {| content := [text_block "done"] |}.
Proof.
  assert (Hv : validateChartConfig JSON.parse (Str bar_chart_text) = Normal bar_chart)
    by (vm_compute; reflexivity).
  destruct (one_content_block JSON.parse empty_render (Str bar_chart_text) png false)
    as [Hone Hfallback].
  - intros parsed _. exists empty_result. reflexivity.
  - split; [exact Hone|].
    apply (Hfallback bar_chart empty_result); [exact Hv|reflexivity..].
Defined.




Lemma working_render_honours_contract : RenderSpec.honours_contract working_render.
Proof.
  intros config format saveToFile. unfold working_render.
  destruct format; [destruct saveToFile|]; eexists; split; reflexivity.
Qed.



(** ** Start-up *)

Module StartupFacts.
Import Startup.


Lemma or_else_truthy (s : string) (b : option string) :
  s <> "" -> or_else (Some s) b = Some s.
Proof. intros H. unfold or_else. rewrite (truthy_field_Some _ H). reflexivity. Qed.




End StartupFacts.

(** ** The session registry *)

Module HttpFacts.
Import Http.

Lemma truthy_field_inv (o : option string) (s : string) :
  truthy_field o = Some s -> o = Some s /\ s <> "".
Proof.
  destruct o as [s'|]; [|discriminate]. cbn.
  destruct (String.eqb_spec s' ""); [discriminate|]. intros [= ->]. auto.
Qed.

Lemma truthy_field_None (o : option string) :
  truthy_field o = None <-> o = None \/ o = Some "".
Proof.
  destruct o as [s|]; cbn.
  - destruct (String.eqb_spec s "") as [->|Hne]; split; auto; try discriminate.
    intros [H|[= H]]; [discriminate|contradiction].
  - split; auto.
Qed.

(** A request leaves the registry as it is, and at most adds one transport
    that has no id yet. *)
Lemma requestListener_state (req : IncomingMessage) (st : State) :
  transports (fst (requestListener req st)) = transports st
  /\ (sessionId (fst (requestListener req st)) = sessionId st
      \/ sessionId (fst (requestListener req st)) = (sessionId st ++ [None])%list).
Proof.
  unfold requestListener.
  destruct (String.eqb (pathname req) "/mcp").
  - destruct (truthy_field (mcp_session_id req) ≫= _); [auto|].
    destruct (negb _ && _); cbn; auto.
  - destruct (String.eqb (pathname req) "/health"); cbn; auto.
Qed.

Lemma lookup_after_request (req : IncomingMessage) (st : State) (t : nat) :
  sessionId (fst (requestListener req st)) !! t = sessionId st !! t
  \/ sessionId (fst (requestListener req st)) !! t = Some None.
Proof.
  destruct (requestListener_state req st) as [_ [->| ->]]; [auto|].
  destruct (decide (t < List.length (sessionId st))%nat) as [Hlt|Hge].
  - left. apply lookup_app_l. exact Hlt.
  - destruct (decide (t = List.length (sessionId st))) as [->|Hne].
    + right. apply list_lookup_middle. reflexivity.
    + left. rewrite !lookup_ge_None_2; [reflexivity|lia|rewrite length_app; cbn; lia].
Qed.

Lemma lookup_after_handshake (l : list (option string)) (t t' : nat) (s : string) :
  <[t' := Some s]> l !! t = l !! t \/ <[t' := Some s]> l !! t = Some (Some s).
Proof.
  destruct (decide (t' = t)) as [->|Hne].
  - destruct (decide (t < List.length l)%nat).
    + right. apply list_lookup_insert_eq. assumption.
    + left. rewrite list_insert_ge by lia. reflexivity.
  - left. apply list_lookup_insert_ne. exact Hne.
Qed.

Section Session.

Variable t : nat.
Variable sid : string.

Lemma foreign_handshake t' sid' :
  foreign t sid (SessionInitialized t' sid') = true -> t' <> t /\ sid' <> sid.
Proof.
  cbn. intros H. apply andb_true_iff in H as [Ht Hs].
  apply negb_true_iff in Ht, Hs.
  apply Nat.eqb_neq in Ht. apply String.eqb_neq in Hs. auto.
Qed.

Lemma foreign_closure t' : foreign t sid (Closed t') = true -> t' <> t.
Proof. cbn. intros H. apply negb_true_iff in H. apply Nat.eqb_neq in H. exact H. Qed.

Lemma step_pending st ev :
  foreign t sid ev = true -> pending t sid st -> pending t sid (fst (step st ev)).
Proof.
  intros Hev [Ht Hfresh]. destruct ev as [req|t' sid'|t']; cbn [step fst].
  - split.
    + destruct (lookup_after_request req st t) as [-> | ->]; [exact Ht|reflexivity].
    + intros t'. destruct (lookup_after_request req st t') as [-> | ->];
        [apply Hfresh|discriminate].
  - apply foreign_handshake in Hev as [Hne Hsid]. split; cbn.
    + rewrite list_lookup_insert_ne by exact Hne. exact Ht.
    + intros t''. destruct (lookup_after_handshake (sessionId st) t'' t' sid') as [-> | ->];
        [apply Hfresh|congruence].
  - unfold onclose. destruct (truthy_field _); split; cbn; assumption.
Qed.

Lemma step_active st ev :
  foreign t sid ev = true -> active t sid st -> active t sid (fst (step st ev)).
Proof.
  intros Hev (Hreg & Ht & Huniq). destruct ev as [req|t' sid'|t']; cbn [step fst].
  - destruct (requestListener_state req st) as [Htr _].
    split; [rewrite Htr; exact Hreg|]. split.
    + destruct (lookup_after_request req st t) as [-> | Hnew]; [exact Ht|].
      destruct (requestListener_state req st) as [_ [Hsame|Hadd]].
      * rewrite Hsame. exact Ht.
      * rewrite Hadd. apply lookup_app_l_Some. exact Ht.
    + intros t'' Hne. destruct (lookup_after_request req st t'') as [-> | ->];
        [apply Huniq; exact Hne|discriminate].
  - apply foreign_handshake in Hev as [Hne Hsid]. split; [|split]; cbn.
    + rewrite lookup_insert_ne by exact Hsid. exact Hreg.
    + rewrite list_lookup_insert_ne by exact Hne. exact Ht.
    + intros t'' Hne'. destruct (lookup_after_handshake (sessionId st) t'' t' sid') as [-> | ->];
        [apply Huniq; exact Hne'|congruence].
  - apply foreign_closure in Hev. unfold onclose.
    destruct (truthy_field (mjoin (sessionId st !! t'))) as [s|] eqn:Hs;
      [|split; [|split]; assumption].
    apply truthy_field_inv in Hs as [Hs _].
    assert (sessionId st !! t' = Some (Some s)) as Hlook.
    { destruct (sessionId st !! t') as [[s'|]|]; cbn in Hs; congruence. }
    assert (s <> sid) as Hsid.
    { intros ->. exact (Huniq t' Hev Hlook). }
    split; [|split]; cbn; [|assumption..].
    rewrite lookup_delete_ne by exact Hsid. exact Hreg.
Qed.

Lemma step_absent st ev :
  foreign t sid ev = true -> absent sid st -> absent sid (fst (step st ev)).
Proof.
  unfold absent. intros Hev Hreg. destruct ev as [req|t' sid'|t']; cbn [step fst].
  - destruct (requestListener_state req st) as [-> _]. exact Hreg.
  - apply foreign_handshake in Hev as [_ Hsid]. cbn.
    rewrite lookup_insert_ne by exact Hsid. exact Hreg.
  - unfold onclose. destruct (truthy_field _) as [s|]; [|exact Hreg]. cbn.
    destruct (decide (s = sid)) as [->|Hne].
    + apply lookup_delete_eq.
    + rewrite lookup_delete_ne by exact Hne. exact Hreg.
Qed.

(** The three states are kept by every run of foreign events. *)
Lemma run_invariant (P : State -> Prop) :
  (forall st ev, foreign t sid ev = true -> P st -> P (fst (step st ev))) ->
  forall evs st, forallb (foreign t sid) evs = true -> P st -> P (run st evs).
Proof.
  intros Hstep evs. induction evs as [|ev evs IH]; intros st Hall Hst; [exact Hst|].
  cbn in Hall. apply andb_true_iff in Hall as [Hev Hall].
  cbn. apply IH; [exact Hall|]. apply Hstep; assumption.
Qed.

End Session.

Lemma forallb_app_inv {A} (f : A -> bool) (l1 l2 : list A) :
  forallb f (l1 ++ l2)%list = true -> forallb f l1 = true /\ forallb f l2 = true.
Proof. rewrite forallb_app. apply andb_true_iff. Qed.

(** A request to /mcp under a registered id goes to the stored transport
    and changes nothing. *)
Lemma registered_request st req sid t :
  pathname req = "/mcp" -> mcp_session_id req = Some sid -> sid <> "" ->
  transports st !! sid = Some t ->
  requestListener req st = (st, [HandleRequest t req]).
Proof.
  intros Hpath Hhdr Hne Hreg. unfold requestListener.
  rewrite Hpath, Hhdr, (truthy_field_Some _ Hne). cbn. rewrite Hreg. reflexivity.
Qed.

(** A request to /mcp under an id that is not registered is refused. *)
Lemma unregistered_request st req sid :
  pathname req = "/mcp" -> mcp_session_id req = Some sid -> sid <> "" ->
  transports st !! sid = None ->
  requestListener req st = (st, [WriteHead 400 json_header; EndJson no_session_body]).
Proof.
  intros Hpath Hhdr Hne Hreg. unfold requestListener.
  rewrite Hpath, Hhdr, (truthy_field_Some _ Hne). cbn. rewrite Hreg. reflexivity.
Qed.

(** A POST to /mcp without a session header creates one transport. *)
Lemma initial_request st req :
  pathname req = "/mcp" -> method req = "POST" -> mcp_session_id req = None ->
  requestListener req st
  = ({| transports := transports st; sessionId := (sessionId st ++ [None])%list |},
     [NewTransport (List.length (sessionId st)); Connect (List.length (sessionId st));
      HandleRequest (List.length (sessionId st)) req]).
Proof.
  intros Hpath Hmeth Hhdr. unfold requestListener. rewrite Hpath, Hmeth, Hhdr. reflexivity.
Qed.

(** C3.  The life of a session.  A POST to /mcp without a session header
    creates exactly one transport; the handshake of that transport stores
    it in the registry under its fresh id; from then on every request with
    that id in its header is forwarded to that transport, and no transport
    is created for it; once the transport reports its closure the id is no
    longer in the registry, and a later request with it is refused as an
    unknown session.  Other requests, and the handshakes and closures of
    other transports, may come in between. *)
Theorem session_lifecycle
    (st0 : State) (sid : string) (first req later : IncomingMessage)
    (others0 others1 others2 : list Event) :
  let t := List.length (sessionId st0) in
  sid <> "" ->
  Some sid ∉ sessionId st0 ->
  pathname first = "/mcp" -> method first = "POST" -> mcp_session_id first = None ->
  pathname req = "/mcp" -> mcp_session_id req = Some sid ->
  pathname later = "/mcp" -> mcp_session_id later = Some sid ->
  forallb (foreign t sid) (others0 ++ others1 ++ others2)%list = true ->
  let st1 := fst (requestListener first st0) in
  let st2 := onsessioninitialized t sid (run st1 others0) in
  let st3 := run st2 others1 in
  let st4 := run (onclose t st3) others2 in
  requestListener first st0
  = ({| transports := transports st0; sessionId := (sessionId st0 ++ [None])%list |},
     [NewTransport t; Connect t; HandleRequest t first])
  /\ transports st2 !! sid = Some t
  /\ requestListener req st3 = (st3, [HandleRequest t req])
  /\ transports (onclose t st3) !! sid = None
  /\ requestListener later st4
     = (st4, [WriteHead 400 json_header; EndJson no_session_body]).
Proof.
  intros t Hne Hfresh Hp1 Hm1 Hh1 Hp2 Hh2 Hp3 Hh3 Hall st1 st2 st3 st4.
  apply forallb_app_inv in Hall as [Hall0 Hall].
  apply forallb_app_inv in Hall as [Hall1 Hall2].
  assert (Hfirst := initial_request st0 first Hp1 Hm1 Hh1). fold t in Hfirst.
  assert (pending t sid st1) as Hpending.
  { subst st1. rewrite Hfirst. cbn [fst]. split; cbn.
    - apply list_lookup_middle. reflexivity.
    - intros t' Hlook. apply lookup_app_Some in Hlook as [Hlook|[_ Hlook]].
      + apply Hfresh. apply list_elem_of_lookup. eauto.
      + destruct (t' - List.length (sessionId st0))%nat as [|[|k]]; discriminate. }
  assert (pending t sid (run st1 others0)) as [Hslot Hunused]
    by (apply (run_invariant t sid); [apply step_pending|assumption..]).
  assert (active t sid st2) as Hactive.
  { subst st2. split; [|split]; cbn.
    - apply lookup_insert_eq.
    - apply list_lookup_insert_eq. apply lookup_lt_Some in Hslot. exact Hslot.
    - intros t' Hne'. rewrite list_lookup_insert_ne by auto. apply Hunused. }
  assert (active t sid st3) as (Hreg & Hmine & _)
    by (apply (run_invariant t sid); [apply step_active|assumption..]).
  assert (absent sid (onclose t st3)) as Hclosed.
  { unfold absent, onclose. rewrite Hmine. cbn [mjoin option_join].
    rewrite (truthy_field_Some _ Hne). cbn. apply lookup_delete_eq. }
  assert (absent sid st4) as Habsent
    by (apply (run_invariant t sid); [apply step_absent|assumption..]).
  split; [exact Hfirst|]. split; [apply Hactive|].
  split; [exact (registered_request st3 req sid t Hp2 Hh2 Hne Hreg)|].
  split; [exact Hclosed|].
  exact (unregistered_request st4 later sid Hp3 Hh3 Hne Habsent).
Qed.

(** C4, as amended.  A request to /mcp that carries a session header whose
    id is not empty and is not in the registry, or that is not a POST and
    carries no session header (or an empty one), is answered with status
    400 and a JSON body holding an error object with code -32000; nothing
    reaches a transport and the registry is left as it is. *)
Theorem no_valid_session_is_refused (st : State) (req : IncomingMessage) :
  pathname req = "/mcp" ->
  (exists sid, mcp_session_id req = Some sid /\ sid <> "" /\ transports st !! sid = None)
  \/ (method req <> "POST" /\ (mcp_session_id req = None \/ mcp_session_id req = Some "")) ->
  requestListener req st
  = (st, [WriteHead 400 [("Content-Type", "application/json")]; EndJson no_session_body])
  /\ get (get no_session_body "error") "code" = Num (of_Z (-32000))
  /\ get no_session_body "jsonrpc" = Str "2.0"
  /\ forallb (fun e => negb (reaches_transport e)) (snd (requestListener req st)) = true.
Proof.
  intros Hpath Hcase.
  assert (requestListener req st
          = (st, [WriteHead 400 json_header; EndJson no_session_body])) as Hrefused.
  { destruct Hcase as [(sid & Hhdr & Hne & Hreg)|[Hmeth Hhdr]].
    - exact (unregistered_request st req sid Hpath Hhdr Hne Hreg).
    - unfold requestListener. rewrite Hpath. cbn [String.eqb Ascii.eqb Bool.eqb].
      apply truthy_field_None in Hhdr. rewrite Hhdr. cbn.
      destruct (String.eqb_spec (method req) "POST"); [contradiction|reflexivity]. }
  rewrite Hrefused. repeat split.
Qed.

End HttpFacts.

Import Http.

Lemma session_lifecycle_witness :
  let others0 := [Request get_without_session] in
  let others1 := [Request post_initialize; SessionInitialized 1 "another-session";
                  Request (with_session "GET" session)] in
  let others2 := [Closed 1; Request post_initialize] in
  let st2 := run initial (Request post_initialize :: others0
                            ++ [SessionInitialized 0 session])%list in
  let st3 := run st2 others1 in
  let st4 := run (onclose 0 st3) others2 in
  requestListener post_initialize initial
  = ({| transports := ∅; sessionId := [None] |},
     [NewTransport 0; Connect 0; HandleRequest 0 post_initialize])
  /\ transports st2 !! session = Some 0%nat
  /\ requestListener (with_session "POST" session) st3
     = (st3, [HandleRequest 0 (with_session "POST" session)])
  /\ transports (onclose 0 st3) !! session = None
  /\ requestListener (with_session "DELETE" session) st4
     = (st4, [WriteHead 400 json_header; EndJson no_session_body]).
Proof.
  apply (HttpFacts.session_lifecycle initial session post_initialize
           (with_session "POST" session) (with_session "DELETE" session)
           [Request get_without_session]
           [Request post_initialize; SessionInitialized 1 "another-session";
            Request (with_session "GET" session)]
           [Closed 1; Request post_initialize]);
    try reflexivity.
  - discriminate.
  - apply not_elem_of_nil.
Defined.

Lemma no_valid_session_is_refused_witness :
  requestListener (with_session "POST" session) initial
  = (initial, [WriteHead 400 json_header; EndJson no_session_body])
  /\ requestListener get_without_session initial
     = (initial, [WriteHead 400 json_header; EndJson no_session_body]).
Proof.
  split.
  - apply (HttpFacts.no_valid_session_is_refused initial (with_session "POST" session));
      [reflexivity|].
    left. exists session. split; [reflexivity|]. split; [discriminate|reflexivity].
  - apply (HttpFacts.no_valid_session_is_refused initial get_without_session);
      [reflexivity|].
    right. split; [discriminate|]. left. reflexivity.
Defined.

(** C4 as stated fails for a header without a value.  A POST to /mcp whose
    session header is the empty string carries an id that is not in the
    registry; it is treated as a request without a header, and a transport
    is created for it. *)
Lemma empty_session_header_creates_transport :
  mcp_session_id (with_session "POST" "") = Some ""
  /\ transports initial !! "" = None
  /\ requestListener (with_session "POST" "") initial
     = ({| transports := ∅; sessionId := [None] |},
        [NewTransport 0; Connect 0; HandleRequest 0 (with_session "POST" "")])
  /\ requestListener (with_session "POST" "") initial
     <> (initial, [WriteHead 400 json_header; EndJson no_session_body]).
Proof.
  split; [reflexivity|]. split; [reflexivity|]. split; [reflexivity|].
  vm_compute. discriminate.
Qed.

(** * Further properties of the code *)

(** ** What the validator accepts *)

Module ValidatorMore.
Import ValidatorSpec.

(** The validator returns [config] exactly when [config] is the value under
    validation and passes the five checks made on it. *)
Lemma validate_accepts (JSON_parse : string -> option value) (input config : value) :
  validateChartConfig JSON_parse input = Normal config <->
  subject JSON_parse input = Some config
  /\ is_object config = true
  /\ is_chart_kind (get config "type") = true
  /\ exists d ds, get (get config "data") "datasets" = Arr (d :: ds).
Proof.
  unfold validateChartConfig.
  match goal with |- mbind _ ?c = _ <-> _ => set (parsed := c) end.
  assert (Hparsed : parsed = match subject JSON_parse input with
                             | Some v => Normal v
                             | None => Throw (Error (check_message NotValidJson))
                             end).
  { subst parsed. destruct input; reflexivity. }
  rewrite Hparsed. clear parsed Hparsed.
  destruct (subject JSON_parse input) as [v|];
    cbn [mbind completion_bind bind]; [|split; [discriminate|intros [[=] _]]].
  rewrite object_test_top, type_test, object_test, array_test.
  destruct (is_object v) eqn:Hobj; cbn [negb].
  2: { split; [discriminate|]. intros ([= <-] & Hc & _). congruence. }
  destruct (is_missing (get v "type") || negb (is_chart_kind (get v "type"))) eqn:Htype.
  { split; [discriminate|]. intros ([= <-] & _ & Hk & _).
    rewrite Hk in Htype. destruct (get v "type"); discriminate. }
  apply orb_false_elim in Htype as [_ Htype]. apply negb_false_iff in Htype.
  destruct (is_missing (get v "data") || negb (is_object (get v "data"))) eqn:Hdata.
  { split; [discriminate|]. intros ([= <-] & _ & _ & d & ds & Hds).
    destruct (get v "data") as [| | | | |l|o]; discriminate. }
  destruct (is_missing (get (get v "data") "datasets")
            || negb (isArray (get (get v "data") "datasets"))) eqn:Harr.
  { split; [discriminate|]. intros ([= <-] & _ & _ & d & ds & Hds).
    rewrite Hds in Harr. discriminate. }
  apply orb_false_elim in Harr as [_ Harr]. apply negb_false_iff in Harr.
  rewrite (empty_test _ Harr).
  destruct (get (get v "data") "datasets") as [| | | | |[|d ds]|] eqn:Hds;
    try discriminate.
  - split; [discriminate|]. intros ([= <-] & _ & _ & d & ds & Hds'). congruence.
  - split.
    + intros [= <-]. eauto 10.
    + intros ([= <-] & _). reflexivity.
Qed.

(** X1.  The validator returns a configuration exactly when the value
    under validation (the input, or the text parsed for a string input) is
    an object whose [type] is one of the eight strings of [validTypes] and
    whose [data.datasets] is an array with at least one element; it then
    returns that value.  Nothing is asked of the elements of the array. *)
Theorem validator_acceptance (JSON_parse : string -> option value) (input config : value) :
  validateChartConfig JSON_parse input = Normal config <->
  match input with Str s => JSON_parse s | _ => Some input end = Some config
  /\ String.eqb (typeof config) "object" && truthy config = true
  /\ (exists kind, get config "type" = Str kind /\ In kind validTypes)
  /\ (exists dataset others,
        get (get config "data") "datasets" = Arr (dataset :: others)).
Proof.
  rewrite validate_accepts. unfold subject.
  assert (is_object config = true
          <-> String.eqb (typeof config) "object" && truthy config = true) as ->.
  { destruct config as [| |[]| | | |]; cbn; split; congruence. }
  assert (is_chart_kind (get config "type") = true
          <-> exists kind, get config "type" = Str kind /\ In kind validTypes) as ->.
  { destruct (get config "type") as [| | | |k| |]; cbn;
      try (split; [discriminate|intros (k' & [=] & _)]).
    rewrite bool_decide_eq_true, list_elem_of_In.
    split; [eauto|]. intros (k' & [= <-] & Hin). exact Hin. }
  reflexivity.
Qed.

Lemma validator_acceptance_witness :
  validateChartConfig JSON.parse (Str Examples.bar_chart_text) = Normal Examples.bar_chart.
Proof.
  apply (validator_acceptance JSON.parse (Str Examples.bar_chart_text) Examples.bar_chart).
  split; [vm_compute; reflexivity|]. split; [reflexivity|]. split.
  - exists "bar". split; [reflexivity|]. left. reflexivity.
  - vm_compute. eexists. eexists. reflexivity.
Defined.

(** X2.  A configuration the validator has returned is returned again, as
    it is, when validated once more. *)
Theorem validated_config_is_stable (JSON_parse : string -> option value)
    (input config : value) :
  validateChartConfig JSON_parse input = Normal config ->
  validateChartConfig JSON_parse config = Normal config.
Proof.
  rewrite !validate_accepts. intros (_ & Hobj & Hrest).
  split; [|auto]. destruct config; try discriminate; reflexivity.
Qed.

Lemma validated_config_is_stable_witness :
  validateChartConfig JSON.parse (Str Examples.bar_chart_text) = Normal Examples.bar_chart
  /\ validateChartConfig JSON.parse Examples.bar_chart = Normal Examples.bar_chart.
Proof.
  assert (H : validateChartConfig JSON.parse (Str Examples.bar_chart_text)
              = Normal Examples.bar_chart) by (vm_compute; reflexivity).
  split; [exact H|].
  exact (validated_config_is_stable JSON.parse _ _ H).
Defined.

(** X3.  For a configuration given as an object, only its [type] and
    [data] properties count: two objects that agree on both are both
    returned, or both refused with the same message, whatever else they
    hold. *)
Theorem only_type_and_data_count (JSON_parse : string -> option value)
    (props props' : list (string * value)) :
  lookup_prop "type" props = lookup_prop "type" props' ->
  lookup_prop "data" props = lookup_prop "data" props' ->
  match validateChartConfig JSON_parse (Obj props),
        validateChartConfig JSON_parse (Obj props') with
  | Normal config, Normal config' => config = Obj props /\ config' = Obj props'
  | Throw e, Throw e' => e = e'
  | _, _ => False
  end.
Proof.
  intros Htype Hdata. unfold validateChartConfig.
  cbn [typeof String.eqb Ascii.eqb Bool.eqb mbind completion_bind bind truthy negb orb get].
  rewrite <- Htype, <- Hdata.
  repeat match goal with
         | |- context [if ?b then _ else _] => destruct b
         end; auto.
Qed.

Lemma only_type_and_data_count_witness :
  match validateChartConfig JSON.parse
          (Obj [("type", Str "pie"); ("data", Obj []);
                ("options", Obj [("responsive", Bool true)])]),
        validateChartConfig JSON.parse (Obj [("data", Obj []); ("type", Str "pie")]) with
  | Normal config, Normal config' => False
  | Throw e, Throw e' => e = e' /\ e = Error "Chart data must include a datasets array"
  | _, _ => False
  end.
Proof.
  assert (H := only_type_and_data_count JSON.parse
                 [("type", Str "pie"); ("data", Obj []);
                  ("options", Obj [("responsive", Bool true)])]
                 [("data", Obj []); ("type", Str "pie")] eq_refl eq_refl).
  cbv in H |- *. split; [exact H|reflexivity].
Defined.

End ValidatorMore.

(** ** What the handler answers, and when it throws *)

Module ToolMore.
Import Examples.

(** The handler, by the outcome of validation and of the render. *)
Lemma tool_cases (JSON_parse : string -> option value)
    (generateChart : value -> OutputFormat -> bool -> completion RenderResult)
    (chartConfig : value) (outputFormat : OutputFormat) (saveToFile : bool) :
  (exists e,
     validateChartConfig JSON_parse chartConfig = Throw e
     /\ generateChartTool JSON_parse generateChart chartConfig outputFormat saveToFile
        = Normal {| content := [text_block ("Error: " +:+ JS.message e)] |})
  \/ (exists parsed e,
        validateChartConfig JSON_parse chartConfig = Normal parsed
        /\ generateChart parsed outputFormat saveToFile = Throw e
        /\ generateChartTool JSON_parse generateChart chartConfig outputFormat saveToFile
           = Throw e)
  \/ (exists parsed result,
        validateChartConfig JSON_parse chartConfig = Normal parsed
        /\ generateChart parsed outputFormat saveToFile = Normal result
        /\ generateChartTool JSON_parse generateChart chartConfig outputFormat saveToFile
           = Normal
               {| content :=
                    [ if success result then
                        match truthy_field (htmlSnippet result), buffer result,
                              truthy_field (pngFilePath result) with
                        | Some markup, _, _ => html_block markup
                        | None, Some bytes, _ => image_block (Buffer.toString_base64 bytes)
                        | None, None, Some path => text_block path
                        | None, None, None => text_block (message result)
                        end
                      else text_block (message result +:+ troubleshooting) ] |}).
Proof.
  unfold generateChartTool.
  destruct (validateChartConfig JSON_parse chartConfig) as [parsed|e] eqn:Hv;
    [|left; eauto].
  right. unfold mbind, completion_bind, bind.
  destruct (generateChart parsed outputFormat saveToFile) as [result|e] eqn:Hr;
    [|left; eauto].
  right. exists parsed, result. split; [reflexivity|]. split; [exact Hr|].
  destruct (success result); [|reflexivity].
  destruct (truthy_field (htmlSnippet result)); [reflexivity|].
  destruct (buffer result); [reflexivity|].
  destruct (truthy_field (pngFilePath result)); reflexivity.
Qed.

Section Handler.

Variable JSON_parse : string -> option value.
Variable generateChart : value -> OutputFormat -> bool -> completion RenderResult.

(** X4.  A configuration given as JSON text is answered as the value it
    parses to, whatever the renderer does, when that value is not itself a
    string. *)
Theorem text_answered_as_parsed_value (s : string) (v : value)
    (outputFormat : OutputFormat) (saveToFile : bool) :
  JSON_parse s = Some v ->
  typeof v <> "string" ->
  generateChartTool JSON_parse generateChart (Str s) outputFormat saveToFile
  = generateChartTool JSON_parse generateChart v outputFormat saveToFile.
Proof.
  intros Hparse Hkind.
  assert (validateChartConfig JSON_parse (Str s) = validateChartConfig JSON_parse v) as Hsame.
  { unfold validateChartConfig. cbn [typeof]. rewrite Hparse.
    destruct v; try reflexivity. contradiction Hkind. reflexivity. }
  unfold generateChartTool. rewrite Hsame. reflexivity.
Qed.

(** X5.  The handler throws in one case only: the configuration is valid
    and the call of [generateChart] rejects; it then throws what the call
    threw. *)
Theorem handler_throws_only_what_render_throws (chartConfig : value)
    (outputFormat : OutputFormat) (saveToFile : bool) (e : error) :
  generateChartTool JSON_parse generateChart chartConfig outputFormat saveToFile = Throw e
  <-> exists parsed,
        validateChartConfig JSON_parse chartConfig = Normal parsed
        /\ generateChart parsed outputFormat saveToFile = Throw e.
Proof.
  destruct (tool_cases JSON_parse generateChart chartConfig outputFormat saveToFile)
    as [(e' & Hv & Ht)|[(parsed & e' & Hv & Hr & Ht)|(parsed & result & Hv & Hr & Ht)]];
    rewrite Ht; split.
  - discriminate.
  - intros (parsed & Hv' & _). congruence.
  - intros [= <-]. eauto.
  - intros (parsed' & Hv' & Hr'). congruence.
  - discriminate.
  - intros (parsed' & Hv' & Hr'). congruence.
Qed.

(** X6.  The handler makes no image up: an image block in its answer is
    the only block, and it carries the base64 text of the bytes held by the
    envelope of a successful render that gave no markup. *)
Theorem image_comes_from_rendered_bytes (chartConfig : value)
    (outputFormat : OutputFormat) (saveToFile : bool)
    (response : CallToolResult) (block : ContentBlock) :
  generateChartTool JSON_parse generateChart chartConfig outputFormat saveToFile
  = Normal response ->
  In block (content response) ->
  type block = "image" ->
  exists parsed result bytes,
    validateChartConfig JSON_parse chartConfig = Normal parsed
    /\ generateChart parsed outputFormat saveToFile = Normal result
    /\ success result = true
    /\ truthy_field (htmlSnippet result) = None
    /\ buffer result = Some bytes
    /\ content response = [block]
    /\ data block = Some (Buffer.toString_base64 bytes)
    /\ mimeType block = Some "image/png".
Proof.
  intros Hresp Hin Himage.
  destruct (tool_cases JSON_parse generateChart chartConfig outputFormat saveToFile)
    as [(e' & Hv & Ht)|[(parsed & e' & Hv & Hr & Ht)|(parsed & result & Hv & Hr & Ht)]];
    rewrite Ht in Hresp; try discriminate.
  - injection Hresp as <-. destruct Hin as [<-|[]]. discriminate.
  - injection Hresp as <-. destruct Hin as [<-|[]].
    exists parsed, result.
    destruct (success result); [|discriminate].
    destruct (truthy_field (htmlSnippet result)); [discriminate|].
    destruct (buffer result) as [bytes|].
    + exists bytes. repeat split; assumption.
    + destruct (truthy_field (pngFilePath result)); discriminate.
Qed.

(** X7.  When the render succeeds with bytes and no markup, the data of
    the image block decodes from base64 to exactly those bytes. *)
Theorem image_data_decodes_to_rendered_bytes (chartConfig parsed : value)
    (outputFormat : OutputFormat) (saveToFile : bool)
    (result : RenderResult) (bytes : list byte) :
  validateChartConfig JSON_parse chartConfig = Normal parsed ->
  generateChart parsed outputFormat saveToFile = Normal result ->
  success result = true ->
  truthy_field (htmlSnippet result) = None ->
  buffer result = Some bytes ->
  exists base64,
    generateChartTool JSON_parse generateChart chartConfig outputFormat saveToFile
    = Normal {| content := [image_block base64] |}
    /\ Buffer.from_base64 base64 = Some bytes.
Proof.
  intros Hv Hr Hs Hh Hb. exists (Buffer.toString_base64 bytes). split.
  - run_tool Hv Hr. rewrite Hs, Hh, Hb. reflexivity.
  - apply BufferFacts.base64_roundtrip.
Qed.

(** X8.  The answer is shaped by the envelope, not by the format asked
    for.  Markup in a successful envelope is answered by the html block
    even for a png request and even beside bytes and a path; markup and
    paths that are the empty string count as absent, so that an envelope
    with empty markup and bytes is answered by the image. *)
Theorem envelope_decides_the_block (chartConfig parsed : value)
    (outputFormat : OutputFormat) (saveToFile : bool) (result : RenderResult) :
  validateChartConfig JSON_parse chartConfig = Normal parsed ->
  generateChart parsed outputFormat saveToFile = Normal result ->
  success result = true ->
  (forall markup, htmlSnippet result = Some markup -> markup <> "" ->
     generateChartTool JSON_parse generateChart chartConfig outputFormat saveToFile
     = Normal {| content := [html_block markup] |})
  /\ (forall bytes, htmlSnippet result = Some "" -> buffer result = Some bytes ->
        generateChartTool JSON_parse generateChart chartConfig outputFormat saveToFile
        = Normal {| content := [image_block (Buffer.toString_base64 bytes)] |})
  /\ (htmlSnippet result = None -> buffer result = None -> pngFilePath result = Some "" ->
        generateChartTool JSON_parse generateChart chartConfig outputFormat saveToFile
        = Normal {| content := [text_block (message result)] |}).
Proof.
  intros Hv Hr Hs. split; [|split].
  - intros markup Hh Hne. run_tool Hv Hr. rewrite Hs, Hh, (truthy_field_Some _ Hne).
    reflexivity.
  - intros bytes Hh Hb. run_tool Hv Hr. rewrite Hs, Hh, Hb. reflexivity.
  - intros Hh Hb Hp. run_tool Hv Hr. rewrite Hs, Hh, Hb, Hp. reflexivity.
Qed.

(** X9.  The earlier revision of the handler answers as the present one,
    the [_meta] of the blocks apart: it throws when and what the present
    one throws, and its blocks are those of the present one without their
    [_meta]. *)
Theorem earlier_handler_differs_by_meta (chartConfig : value)
    (outputFormat : OutputFormat) (saveToFile : bool) :
  Earlier.generateChartTool JSON_parse generateChart chartConfig outputFormat saveToFile
  = match generateChartTool JSON_parse generateChart chartConfig outputFormat saveToFile with
    | Normal response =>
        Normal {| content := map Earlier.without_meta (content response) |}
    | Throw e => Throw e
    end.
Proof.
  unfold Earlier.generateChartTool, generateChartTool.
  destruct (validateChartConfig JSON_parse chartConfig) as [parsed|e]; [|reflexivity].
  unfold mbind, completion_bind, bind.
  destruct (generateChart parsed outputFormat saveToFile) as [result|e]; [|reflexivity].
  destruct (success result); [|reflexivity].
  destruct (truthy_field (htmlSnippet result)); [reflexivity|].
  destruct (buffer result); [reflexivity|].
  destruct (truthy_field (pngFilePath result)); reflexivity.
Qed.

End Handler.

(** Instances on the example configuration and the example renderers. *)

Lemma handler_throws_only_what_render_throws_witness :
  generateChartTool JSON.parse (fun _ _ _ => Throw (Error "Canvas is not available"))
    bar_chart png false
  = Throw (Error "Canvas is not available").
Proof.
  apply (handler_throws_only_what_render_throws JSON.parse
           (fun _ _ _ => Throw (Error "Canvas is not available")) bar_chart png false
           (Error "Canvas is not available")).
  exists bar_chart. split; reflexivity.
Defined.

Lemma text_answered_as_parsed_value_witness :
  JSON.parse bar_chart_text = Some bar_chart
  /\ typeof bar_chart <> "string"
  /\ generateChartTool JSON.parse working_render (Str bar_chart_text) html false
     = generateChartTool JSON.parse working_render bar_chart html false.
Proof.
  assert (Hparse : JSON.parse bar_chart_text = Some bar_chart) by (vm_compute; reflexivity).
  assert (Hkind : typeof bar_chart <> "string") by discriminate.
  split; [exact Hparse|]. split; [exact Hkind|].
  exact (text_answered_as_parsed_value JSON.parse working_render _ _ html false Hparse Hkind).
Defined.

Lemma image_comes_from_rendered_bytes_witness :
  exists parsed result bytes,
    validateChartConfig JSON.parse bar_chart = Normal parsed
    /\ working_render parsed png false = Normal result
    /\ success result = true
    /\ truthy_field (htmlSnippet result) = None
    /\ buffer result = Some bytes
    /\ [image_block (Buffer.toString_base64 png_bytes)]
       = [image_block (Buffer.toString_base64 png_bytes)]
    /\ data (image_block (Buffer.toString_base64 png_bytes))
       = Some (Buffer.toString_base64 bytes)
    /\ mimeType (image_block (Buffer.toString_base64 png_bytes)) = Some "image/png".
Proof.
  apply (image_comes_from_rendered_bytes JSON.parse working_render bar_chart png false
           {| content := [image_block (Buffer.toString_base64 png_bytes)] |}
           (image_block (Buffer.toString_base64 png_bytes)));
    [reflexivity | left; reflexivity | reflexivity].
Defined.

Lemma image_data_decodes_to_rendered_bytes_witness :
  exists base64,
    generateChartTool JSON.parse working_render bar_chart png false
    = Normal {| content := [image_block base64] |}
    /\ Buffer.from_base64 base64 = Some png_bytes.
Proof.
  apply (image_data_decodes_to_rendered_bytes JSON.parse working_render bar_chart bar_chart
           png false png_result png_bytes); reflexivity.
Defined.

Lemma envelope_decides_the_block_witness :
  generateChartTool JSON.parse working_render bar_chart html true
  = Normal {| content := [html_block "<div id='chart-container-1'></div>"] |}.
Proof.
  destruct (envelope_decides_the_block JSON.parse working_render bar_chart bar_chart
              html true html_result) as (Hmarkup & _ & _); [reflexivity..|].
  apply Hmarkup; [reflexivity|discriminate].
Defined.

End ToolMore.

(** ** How the arguments are read *)

Module StartupMore.
Import Startup.

Lemma append_cons (c : ascii) (s t : string) : String c s +:+ t = String c (s +:+ t).
Proof. reflexivity. Qed.

Lemma append_nil (t : string) : "" +:+ t = t.
Proof. reflexivity. Qed.

Lemma append_empty (s : string) : s +:+ "" = s.
Proof. induction s as [|c s IH]; [reflexivity|]. rewrite append_cons, IH. reflexivity. Qed.

Lemma prefix_append (p s : string) : String.prefix p (p +:+ s) = true.
Proof.
  induction p as [|c p IH]; [destruct s; reflexivity|].
  rewrite append_cons. simpl. destruct (ascii_dec c c); [exact IH|contradiction].
Qed.

Lemma split_free (sep : ascii) (s : string) : free_of sep s = true -> split sep s = [s].
Proof.
  unfold free_of. induction s as [|c s IH];
    cbn [split forallb list_ascii_of_string]; [reflexivity|]. intros H.
  apply andb_true_iff in H as [Hc Hs]. apply negb_true_iff in Hc.
  rewrite Hc, (IH Hs). reflexivity.
Qed.

Lemma split_at_first (sep : ascii) (name rest : string) :
  free_of sep name = true ->
  split sep (name +:+ String sep rest) = name :: split sep rest.
Proof.
  unfold free_of. induction name as [|c name IH].
  - intros _. rewrite append_nil. cbn [split]. rewrite Ascii.eqb_refl. reflexivity.
  - cbn [forallb list_ascii_of_string]. intros H.
    apply andb_true_iff in H as [Hc Hs]. apply negb_true_iff in Hc.
    rewrite append_cons. cbn [split]. rewrite Hc, (IH Hs). reflexivity.
Qed.

Lemma find_first {A} (f : A -> bool) (pre post : list A) (a : A) :
  Forall (fun x => f x = false) pre -> f a = true ->
  List.find f (pre ++ a :: post)%list = Some a.
Proof.
  induction 1 as [|x pre Hx _ IH]; cbn; intros Ha.
  - rewrite Ha. reflexivity.
  - rewrite Hx. exact (IH Ha).
Qed.

(** The value of a flag: the text after the first [=], up to the next one
    if there is one. *)
Lemma flag_value_segment (name v w : string) :
  free_of "="%char name = true -> free_of "="%char v = true ->
  w = "" \/ (exists w', w = String "=" w') ->
  flag_value (Some (name +:+ String "=" (v +:+ w))) = Some v.
Proof.
  intros Hname Hv Hw. unfold flag_value. cbn [mbind option_bind].
  rewrite (split_at_first _ _ _ Hname).
  destruct Hw as [->|[w' ->]].
  - rewrite append_empty.
    rewrite (split_free _ _ Hv). reflexivity.
  - rewrite (split_at_first _ _ _ Hv). reflexivity.
Qed.

(** X10.  The first argument that starts with [--transport=] decides, the
    later ones are not read.  The HTTP server is started when its value is
    exactly [streamable-http]; any other value, the empty one included,
    starts the stdio transport. *)
Theorem first_transport_flag_decides (pre post : list string) (v : string)
    (env : gmap string string) :
  Forall (fun a => startsWith "--transport=" a = false) pre ->
  free_of "="%char v = true ->
  main (pre ++ ("--transport=" +:+ v) :: post)%list env
  = if String.eqb v "streamable-http"
    then HttpServer (port (pre ++ ("--transport=" +:+ v) :: post)%list env)
    else StdioServerTransport.
Proof.
  intros Hpre Hv. unfold main, transport, transportArg.
  rewrite (find_first _ pre post _ Hpre (prefix_append "--transport=" v)).
  change ("--transport=" +:+ v) with ("--transport" +:+ String "=" v).
  rewrite <- (append_empty v) at 1.
  rewrite (flag_value_segment "--transport" v "" eq_refl Hv (or_introl eq_refl)).
  unfold or_default. cbn [truthy_field].
  destruct (String.eqb_spec v "") as [->|Hne]; [reflexivity|].
  destruct (String.eqb v "streamable-http"); reflexivity.
Qed.

Lemma first_transport_flag_decides_witness :
  main ["--port=8080"; "--transport=sse"; "--transport=streamable-http"] ∅
  = StdioServerTransport
  /\ main ["--transport=streamable-http"; "--transport=stdio"] ∅ = HttpServer (of_Z 3000).
Proof.
  assert (Forall (fun a => startsWith "--transport=" a = false) ["--port=8080"]) as Hpre
    by (repeat constructor).
  assert (Forall (fun a => startsWith "--transport=" a = false) []) as Hnil
    by constructor.
  split.
  - exact (first_transport_flag_decides ["--port=8080"] ["--transport=streamable-http"]
             "sse" ∅ Hpre eq_refl).
  - exact (first_transport_flag_decides [] ["--transport=stdio"] "streamable-http" ∅
             Hnil eq_refl).
Defined.

(** X11.  Without a [PORT] in the environment, or with an empty one, the
    port is read from the first argument that starts with [--port=]: it is
    [parseInt] of the text between the first [=] and the next one, what
    follows a second [=] being dropped, and 3000 when that text is empty. *)
Theorem port_flag_value (pre post : list string) (v w : string)
    (env : gmap string string) :
  Forall (fun a => startsWith "--port=" a = false) pre ->
  free_of "="%char v = true ->
  w = "" \/ (exists w', w = String "=" w') ->
  env !! "PORT" = None \/ env !! "PORT" = Some "" ->
  port (pre ++ ("--port=" +:+ v +:+ w) :: post)%list env
  = if String.eqb v "" then of_Z 3000 else parseInt v.
Proof.
  intros Hpre Hv Hw Henv. unfold port, portArg.
  rewrite (find_first _ pre post _ Hpre (prefix_append "--port=" (v +:+ w))).
  change ("--port=" +:+ v +:+ w) with ("--port" +:+ String "=" (v +:+ w)).
  rewrite (flag_value_segment "--port" v w eq_refl Hv Hw).
  assert (or_else (env !! "PORT") (Some v) = Some v) as ->.
  { unfold or_else. destruct Henv as [-> | ->]; reflexivity. }
  unfold or_default. cbn [truthy_field].
  destruct (String.eqb_spec v ""); reflexivity.
Qed.

Lemma port_flag_value_witness :
  port ["--transport=streamable-http"; "--port=8080=9090"; "--port=7000"] ∅ = of_Z 8080
  /\ port ["--port="] {["PORT" := ""]} = of_Z 3000.
Proof.
  assert (Forall (fun a => startsWith "--port=" a = false) ["--transport=streamable-http"])
    as Hpre by (repeat constructor).
  assert (Forall (fun a => startsWith "--port=" a = false) []) as Hnil by constructor.
  split.
  - exact (port_flag_value ["--transport=streamable-http"] ["--port=7000"]
             "8080" "=9090" ∅ Hpre eq_refl
             (or_intror (ex_intro _ "9090" eq_refl)) (or_introl eq_refl)).
  - exact (port_flag_value [] [] "" "" {["PORT" := ""]} Hnil eq_refl
             (or_introl eq_refl) (or_intror eq_refl)).
Defined.

(** A text that begins with a letter has no integer to read. *)
Lemma parseInt_of_letter (c : ascii) (s : string) :
  (65 <= nat_of_ascii c <= 90 \/ 97 <= nat_of_ascii c <= 122)%nat ->
  parseInt (String c s) = NaN.
Proof.
  intros Hc.
  destruct c as [[] [] [] [] [] [] [] []]; vm_compute in Hc; try lia;
    destruct s as [|b [|b' s]]; reflexivity.
Qed.

(** X12.  A [PORT] that begins with a letter is neither refused nor
    replaced by the port argument or by 3000: the port is [NaN]. *)
Theorem port_that_is_no_number (args : list string) (env : gmap string string)
    (c : ascii) (rest : string) :
  (65 <= nat_of_ascii c <= 90 \/ 97 <= nat_of_ascii c <= 122)%nat ->
  env !! "PORT" = Some (String c rest) ->
  port args env = NaN.
Proof.
  intros Hc Henv. unfold port, or_default, or_else. rewrite Henv. cbn [truthy_field String.eqb].
  apply parseInt_of_letter. exact Hc.
Qed.

Lemma port_that_is_no_number_witness :
  port ["--port=8080"] {["PORT" := "http"]} = NaN.
Proof.
  apply (port_that_is_no_number ["--port=8080"] {["PORT" := "http"]} "h" "ttp").
  - right. vm_compute. lia.
  - reflexivity.
Defined.

End StartupMore.

(** ** The listener, the registry and the shutdown *)

Module LifetimeFacts.
Import Http Lifetime Examples.





(** Consistency is kept by every admissible event. *)
Lemma step_consistent (st : State) (ev : Event) :
  admissible st ev = true -> consistent st -> consistent (fst (step st ev)).
Proof.
  intros Hadm Hcons sid t. destruct ev as [req|t' sid'|t']; cbn [step fst].
  - destruct (HttpFacts.requestListener_state req st) as [-> Hids]. intros Hreg.
    destruct (Hcons sid t Hreg) as [Hne Ht]. split; [exact Hne|].
    destruct Hids as [-> | ->]; [exact Ht|]. apply lookup_app_l_Some. exact Ht.
  - cbn in Hadm. apply andb_true_iff in Hadm as [Hslot Hne'].
    apply bool_decide_eq_true in Hslot. apply negb_true_iff in Hne'.
    apply String.eqb_neq in Hne'. cbn.
    destruct (decide (sid' = sid)) as [->|Hdiff].
    + rewrite lookup_insert_eq. intros [= <-]. split; [exact Hne'|].
      apply list_lookup_insert_eq. apply lookup_lt_Some in Hslot. exact Hslot.
    + rewrite lookup_insert_ne by exact Hdiff. intros Hreg.
      destruct (Hcons sid t Hreg) as [Hne Ht]. split; [exact Hne|].
      rewrite list_lookup_insert_ne; [exact Ht|]. intros ->. congruence.
  - unfold onclose. destruct (truthy_field _) as [s|]; [|apply Hcons]. cbn.
    intros Hreg. apply lookup_delete_Some in Hreg as [_ Hreg]. apply Hcons. exact Hreg.
Qed.

Lemma run_consistent (evs : list Event) :
  forall st, admissible_run st evs = true -> consistent st -> consistent (run st evs).
Proof.
  induction evs as [|ev evs IH]; intros st Hadm Hcons; [exact Hcons|].
  cbn in Hadm. apply andb_true_iff in Hadm as [Hev Hrest].
  cbn. apply IH; [exact Hrest|]. apply step_consistent; assumption.
Qed.

Lemma initial_consistent : consistent initial.
Proof. intros sid t Hreg. cbn in Hreg. rewrite lookup_empty in Hreg. discriminate. Qed.

(** X15.  In every state the server reaches from its start by requests,
    handshakes (one for a transport, after its creation, under an id that
    is not empty) and closures, every id of the registry maps to a
    transport that was created and whose [sessionId] is that id; so no two
    ids map to one transport. *)
Theorem registry_matches_transports (evs : list Event) :
  admissible_run initial evs = true ->
  let st := run initial evs in
  (forall sid t, transports st !! sid = Some t ->
     sid <> "" /\ (t < List.length (sessionId st))%nat
     /\ sessionId st !! t = Some (Some sid))
  /\ (forall sid sid' t,
        transports st !! sid = Some t -> transports st !! sid' = Some t -> sid = sid').
Proof.
  intros Hadm st.
  assert (consistent st) as Hcons
    by (apply run_consistent; [exact Hadm|exact initial_consistent]).
  split.
  - intros sid t Hreg. destruct (Hcons sid t Hreg) as [Hne Ht].
    split; [exact Hne|]. split; [|exact Ht]. apply lookup_lt_Some in Ht. exact Ht.
  - intros sid sid' t Hreg Hreg'.
    destruct (Hcons sid t Hreg) as [_ Ht], (Hcons sid' t Hreg') as [_ Ht']. congruence.
Qed.

Lemma registry_matches_transports_witness :
  let st := run initial [Request post_initialize; Request post_initialize;
                         SessionInitialized 1 session; Closed 0;
                         Request (with_session "GET" session)] in
  (forall sid t, transports st !! sid = Some t ->
     sid <> "" /\ (t < List.length (sessionId st))%nat
     /\ sessionId st !! t = Some (Some sid))
  /\ (forall sid sid' t,
        transports st !! sid = Some t -> transports st !! sid' = Some t -> sid = sid').
Proof.
  apply (registry_matches_transports
           [Request post_initialize; Request post_initialize;
            SessionInitialized 1 session; Closed 0;
            Request (with_session "GET" session)]).
  reflexivity.
Defined.

(** Closing the transports in the order of the registry's keys. *)
Lemma close_all_empties (order : list string) :
  forall st,
    consistent st -> NoDup order ->
    (forall sid, sid ∈ order <-> is_Some (transports st !! sid)) ->
    transports (fst (close_all order st)) = ∅
    /\ sessionId (fst (close_all order st)) = sessionId st
    /\ Forall2 (fun sid t => transports st !! sid = Some t) order (snd (close_all order st)).
Proof.
  induction order as [|sid rest IH]; intros st Hcons Hnodup Hkeys.
  - cbn. split; [|split; [reflexivity|constructor]].
    apply map_empty. intros sid. apply eq_None_not_Some. rewrite <- Hkeys.
    apply not_elem_of_nil.
  - apply NoDup_cons in Hnodup as [Hnotin Hnodup].
    destruct (proj1 (Hkeys sid) ltac:(left)) as [t Hreg].
    destruct (Hcons sid t Hreg) as [Hne Ht].
    assert (onclose t st = {| transports := delete sid (transports st);
                               sessionId := sessionId st |}) as Hclose.
    { unfold onclose. rewrite Ht. cbn [mjoin option_join].
      rewrite (truthy_field_Some _ Hne). reflexivity. }
    cbn [close_all]. rewrite Hreg, Hclose.
    set (st' := {| transports := delete sid (transports st); sessionId := sessionId st |}).
    destruct (IH st') as (Hempty & Hids & Hclosed).
    + intros s t' Hreg'. cbn in Hreg'. apply lookup_delete_Some in Hreg' as [_ Hreg'].
      apply Hcons. exact Hreg'.
    + exact Hnodup.
    + intros s. cbn. rewrite lookup_delete_is_Some, <- Hkeys, elem_of_cons.
      split.
      * intros Hin. split; [|auto]. intros <-. contradiction.
      * intros [Hdiff [Heq|Hin]]; [congruence|exact Hin].
    + destruct (close_all rest st') as [st'' closed]. cbn in *.
      split; [exact Hempty|]. split; [exact Hids|].
      constructor; [exact Hreg|].
      eapply Forall2_impl; [exact Hclosed|]. cbn. intros s t' Hreg'.
      apply lookup_delete_Some in Hreg' as [_ Hreg']. exact Hreg'.
Qed.

(** X16.  On SIGINT, in a state the server has reached and with no other
    event coming in between, every registered transport is closed, once
    and in the order of the registry; the registry is then empty; after
    that the listening server is closed and the process exits with
    status 0. *)
Theorem sigint_closes_every_session (evs : list Event) (order : list string) :
  admissible_run initial evs = true ->
  NoDup order ->
  (forall sid, sid ∈ order <-> is_Some (transports (run initial evs) !! sid)) ->
  exists closed,
    Forall2 (fun sid t => transports (run initial evs) !! sid = Some t) order closed
    /\ sigint order (run initial evs)
       = ({| transports := ∅; sessionId := sessionId (run initial evs) |},
          (Log (nl +:+ "Shutting down server...") :: map CloseTransport closed
             ++ [CloseServer; Exit 0])%list).
Proof.
  intros Hadm Hnodup Hkeys.
  assert (consistent (run initial evs)) as Hcons
    by (apply run_consistent; [exact Hadm|exact initial_consistent]).
  destruct (close_all_empties order _ Hcons Hnodup Hkeys) as (Hempty & Hids & Hclosed).
  unfold sigint. destruct (close_all order (run initial evs)) as [[reg ids] closed].
  cbn in *. subst reg ids. exists closed. split; [exact Hclosed|reflexivity].
Qed.

Lemma sigint_closes_every_session_witness :
  exists closed,
    Forall2 (fun sid t =>
               transports (run initial [Request post_initialize; Request post_initialize;
                                        SessionInitialized 1 session;
                                        SessionInitialized 0 "b2"]) !! sid = Some t)
            [session; "b2"] closed
    /\ sigint [session; "b2"]
         (run initial [Request post_initialize; Request post_initialize;
                       SessionInitialized 1 session; SessionInitialized 0 "b2"])
       = ({| transports := ∅;
             sessionId := sessionId (run initial [Request post_initialize;
                                                  Request post_initialize;
                                                  SessionInitialized 1 session;
                                                  SessionInitialized 0 "b2"]) |},
          (Log (nl +:+ "Shutting down server...") :: map CloseTransport closed
             ++ [CloseServer; Exit 0])%list).
Proof.
  apply (sigint_closes_every_session
           [Request post_initialize; Request post_initialize;
            SessionInitialized 1 session; SessionInitialized 0 "b2"]
           [session; "b2"]).
  - reflexivity.
  - apply NoDup_cons. split; [|apply NoDup_singleton].
    intros Hin. apply list_elem_of_singleton in Hin. discriminate Hin.
  - intros sid. cbn. rewrite !lookup_insert_is_Some, lookup_empty, !elem_of_cons.
    split.
    + intros [->|[->|Hin]].
      * right. split; [discriminate|]. left. reflexivity.
      * left. reflexivity.
      * apply elem_of_nil in Hin. contradiction.
    + intros [<-|[_ [<-|[_ Hnone]]]].
      * right. left. reflexivity.
      * left. reflexivity.
      * destruct Hnone as [? Hnone]. discriminate Hnone.
Defined.

(** X17.  The shutdown closes registered transports only: in a state the
    server has reached, a transport that was created by a request and has
    not completed its handshake is not closed on SIGINT, whatever the
    order of the iteration. *)
Theorem sigint_leaves_pending_transports (evs : list Event) (order : list string)
    (t : nat) :
  admissible_run initial evs = true ->
  sessionId (run initial evs) !! t = Some None ->
  CloseTransport t ∉ snd (sigint order (run initial evs)).
Proof.
  intros Hadm Hpending.
  assert (consistent (run initial evs)) as Hcons
    by (apply run_consistent; [exact Hadm|exact initial_consistent]).
  assert (forall order st, consistent st -> sessionId st !! t = Some None ->
            t ∉ snd (close_all order st)) as Hskip.
  { clear. intros order. induction order as [|sid rest IH]; intros st Hcons Hpending.
    - apply not_elem_of_nil.
    - cbn [close_all]. destruct (transports st !! sid) as [t'|] eqn:Hreg.
      + destruct (Hcons sid t' Hreg) as [Hne Ht'].
        specialize (IH (onclose t' st)).
        destruct (close_all rest (onclose t' st)) as [st' closed]. cbn in *.
        apply not_elem_of_cons. split; [intros ->; congruence|].
        apply IH.
        * apply (step_consistent st (Closed t')); [reflexivity|exact Hcons].
        * unfold onclose. destruct (truthy_field _); exact Hpending.
      + apply IH; assumption. }
  specialize (Hskip order _ Hcons Hpending).
  unfold sigint. destruct (close_all order (run initial evs)) as [st' closed]. cbn in *.
  rewrite not_elem_of_cons. split; [discriminate|].
  rewrite elem_of_app, list_elem_of_fmap. intros [(t' & [= <-] & Hin)|Hin].
  - contradiction.
  - apply elem_of_cons in Hin as [Hin|Hin]; [discriminate|].
    apply list_elem_of_singleton in Hin. discriminate.
Qed.

Lemma sigint_leaves_pending_transports_witness :
  CloseTransport 0
  ∉ snd (sigint [session]
           (run initial [Request post_initialize; Request post_initialize;
                         SessionInitialized 1 session])).
Proof.
  apply (sigint_leaves_pending_transports
           [Request post_initialize; Request post_initialize;
            SessionInitialized 1 session] [session] 0).
  - reflexivity.
  - reflexivity.
Defined.

(** X18.  The closure of a transport removes at most the entry under that
    transport's own id: every other id stays registered as it was, no
    transport's [sessionId] changes, and a second closure of the same
    transport changes nothing more. *)
Theorem onclose_removes_own_entry_only (t : nat) (st : State) :
  sessionId (onclose t st) = sessionId st
  /\ (forall sid, sessionId st !! t <> Some (Some sid) ->
        transports (onclose t st) !! sid = transports st !! sid)
  /\ onclose t (onclose t st) = onclose t st.
Proof.
  unfold onclose at 1 2 4.
  destruct (truthy_field (mjoin (sessionId st !! t))) as [own|] eqn:Hown.
  - cbn [sessionId transports]. split; [reflexivity|]. split.
    + intros sid Hother. apply lookup_delete_ne. intros <-.
      apply HttpFacts.truthy_field_inv in Hown as [Hown _].
      destruct (sessionId st !! t) as [[s|]|]; cbn in Hown; congruence.
    + unfold onclose. cbn [sessionId transports]. rewrite Hown.
      rewrite delete_delete_eq. reflexivity.
  - split; [reflexivity|]. split; [reflexivity|].
    unfold onclose. rewrite Hown. reflexivity.
Qed.

Lemma onclose_removes_own_entry_only_witness :
  transports
    (onclose 0 (run initial [Request post_initialize; Request post_initialize;
                             SessionInitialized 0 "b2"; SessionInitialized 1 session]))
    !! session
  = Some 1%nat.
Proof.
  destruct (onclose_removes_own_entry_only 0
              (run initial [Request post_initialize; Request post_initialize;
                            SessionInitialized 0 "b2"; SessionInitialized 1 session]))
    as (_ & Hothers & _).
  rewrite (Hothers session); [reflexivity|]. vm_compute. discriminate.
Defined.

End LifetimeFacts.
